(** * The research-assistant activity timeline of the dashboard's [App]

    A shallow embedding of the stateful logic of the [App] component: the
    stream classifier [onUpdateEvent], the archive effect that snapshots the
    live timeline under the identity of the completed assistant message, and
    the submission handler [handleSubmit].

    React state ([useState]) and the mutable ref ([useRef]) are gathered in
    the record [AppState]; every callback is a function from the state in
    which it is invoked to the state React commits after it.  The stream
    collaborator ([useStream]) is the record [Thread], read by the callbacks
    and never written by them; a call of [thread.submit] is returned as the
    payload it was called with. *)

From Stdlib Require Import Ascii String DecimalString.
From stdpp Require Import gmap strings list fin_maps.

Local Open Scope string_scope.

(** ** The JavaScript primitives the component relies on

    A string is a sequence of code units; the model covers the code units
    U+0000 to U+00FF, one [ascii] each. *)

Module JS.

(** [Boolean(s)] for a string: only the empty string is falsy. *)
Definition truthy (s : string) : bool :=
  match s with
  | EmptyString => false
  | String _ _ => true
  end.

(** [Boolean(v)] for a value that is a string or absent ([undefined],
    [null]). *)
Definition truthy_opt (v : option string) : bool :=
  match v with
  | Some s => truthy s
  | None => false
  end.

(** [v || d], for [v] a string or absent. *)
Definition or_else (v : option string) (d : string) : string :=
  match v with
  | Some s => if truthy s then s else d
  | None => d
  end.

(** The WhiteSpace and LineTerminator code units below U+0100: TAB, LF,
    VT, FF, CR, SP and NBSP. *)
Definition isWhiteSpace (c : ascii) : bool :=
  bool_decide (nat_of_ascii c ∈ [9; 10; 11; 12; 13; 32; 160]).

Fixpoint trimStart (s : string) : string :=
  match s with
  | EmptyString => EmptyString
  | String c s' => if isWhiteSpace c then trimStart s' else s
  end.

(** [trimEnd] written by recursion from the left: a white-space code unit
    is dropped exactly when everything after it has been dropped. *)
Fixpoint trimEnd (s : string) : string :=
  match s with
  | EmptyString => EmptyString
  | String c s' =>
      match trimEnd s' with
      | EmptyString => if isWhiteSpace c then EmptyString else String c EmptyString
      | t => String c t
      end
  end.

(** [String.prototype.trim]. *)
Definition trim (s : string) : string := trimEnd (trimStart s).

(** [Array.prototype.join] on an array of strings. *)
Fixpoint join (sep : string) (l : list string) : string :=
  match l with
  | [] => ""
  | [x] => x
  | x :: l' => x ++ sep ++ join sep l'
  end.

(** [Number.prototype.toString] on a non-negative integer. *)
Definition toString (n : N) : string :=
  NilZero.string_of_uint (N.to_uint n).

(** [[...new Set(l)]]: a [Set] keeps each value once, in the order of
    first insertion.  [seen] is the content of the set so far. *)
Fixpoint setAddAll (seen l : list string) : list string :=
  match l with
  | [] => seen
  | x :: l' =>
      if bool_decide (x ∈ seen) then setAddAll seen l'
      else setAddAll (seen ++ [x])%list l'
  end.

Definition newSet (l : list string) : list string := setAddAll [] l.

(** The escape [\n] of a string or template literal. *)
Definition LF : string := String "010" EmptyString.

(** [a.slice(0, n)]. *)
Definition slice0 {A} (n : nat) (a : list A) : list A := take n a.

End JS.

(** ** Data model *)

(** [ProcessedEvent]: one line of the activity timeline. *)
Record ProcessedEvent := {
  title : string;
  data : string
}.

(** A [Message] of the thread, with the fields the component reads.
    [id] is optional in the SDK's type. *)
Record Message := {
  type : string;
  content : string;
  id : option string
}.

(** One entry of [sources_gathered]; only [label] is read. *)
Record Source := {
  label : option string
}.

(** The payloads of an update notification, in the shapes the agent emits
    them: [search_query] an array of strings, [sources_gathered] an array
    of objects whose [label] is a string.  [None] stands for a property
    that is absent, [undefined] or [null]. *)
Record GenerateQuery := {
  search_query : option (list string)
}.

Record WebResearch := {
  sources_gathered : option (list Source)
}.

(** An update notification of the stream: an object with one property per
    graph node that reported.  The payloads of [reflection] and
    [finalize_answer] are objects whose content is never read. *)
Record UpdateEvent := {
  generate_query : option GenerateQuery;
  web_research : option WebResearch;
  reflection : option unit;
  finalize_answer : option unit
}.

Inductive PageType := news | market | charting | settings.

(** The values [useStream] exposes to a render. *)
Record Thread := {
  messages : list Message;
  isLoading : bool
}.

(** The argument of [thread.submit]. *)
Module Payload.
Record t := {
  messages : list Message;
  initial_search_query_count : nat;
  max_research_loops : nat;
  reasoning_model : string
}.
End Payload.

(** The state of [App]: five [useState] cells and the [useRef] latch. *)
Record AppState := {
  processedEventsTimeline : list ProcessedEvent;
  historicalActivities : gmap string (list ProcessedEvent);
  backgroundContext : option string;
  hasFinalizeEventOccurredRef : bool;
  error : option string;
  currentPage : PageType
}.

#[global] Instance ProcessedEvent_eq_dec : EqDecision ProcessedEvent.
Proof. solve_decision. Defined.

#[global] Instance Message_eq_dec : EqDecision Message.
Proof. solve_decision. Defined.

(** The state of the first render. *)
Definition initialState : AppState := {|
  processedEventsTimeline := [];
  historicalActivities := ∅;
  backgroundContext := None;
  hasFinalizeEventOccurredRef := false;
  error := None;
  currentPage := news
|}.

(** The state setters; a setter called with an updater function applies it
    to the previous value. *)
Definition setProcessedEventsTimeline
    (f : list ProcessedEvent -> list ProcessedEvent) (s : AppState) : AppState :=
  {| processedEventsTimeline := f (processedEventsTimeline s);
     historicalActivities := historicalActivities s;
     backgroundContext := backgroundContext s;
     hasFinalizeEventOccurredRef := hasFinalizeEventOccurredRef s;
     error := error s;
     currentPage := currentPage s |}.

Definition setHistoricalActivities
    (f : gmap string (list ProcessedEvent) -> gmap string (list ProcessedEvent))
    (s : AppState) : AppState :=
  {| processedEventsTimeline := processedEventsTimeline s;
     historicalActivities := f (historicalActivities s);
     backgroundContext := backgroundContext s;
     hasFinalizeEventOccurredRef := hasFinalizeEventOccurredRef s;
     error := error s;
     currentPage := currentPage s |}.

Definition setBackgroundContext (c : option string) (s : AppState) : AppState :=
  {| processedEventsTimeline := processedEventsTimeline s;
     historicalActivities := historicalActivities s;
     backgroundContext := c;
     hasFinalizeEventOccurredRef := hasFinalizeEventOccurredRef s;
     error := error s;
     currentPage := currentPage s |}.

(** [hasFinalizeEventOccurredRef.current = b]. *)
Definition assignFinalizeRef (b : bool) (s : AppState) : AppState :=
  {| processedEventsTimeline := processedEventsTimeline s;
     historicalActivities := historicalActivities s;
     backgroundContext := backgroundContext s;
     hasFinalizeEventOccurredRef := b;
     error := error s;
     currentPage := currentPage s |}.

Definition setError (e : option string) (s : AppState) : AppState :=
  {| processedEventsTimeline := processedEventsTimeline s;
     historicalActivities := historicalActivities s;
     backgroundContext := backgroundContext s;
     hasFinalizeEventOccurredRef := hasFinalizeEventOccurredRef s;
     error := e;
     currentPage := currentPage s |}.

Definition setCurrentPage (p : PageType) (s : AppState) : AppState :=
  {| processedEventsTimeline := processedEventsTimeline s;
     historicalActivities := historicalActivities s;
     backgroundContext := backgroundContext s;
     hasFinalizeEventOccurredRef := hasFinalizeEventOccurredRef s;
     error := error s;
     currentPage := p |}.

(** ** The stream classifier *)

(** The body of the [web_research] branch: the summary line for the
    gathered sources. *)
Definition webResearchEvent (w : WebResearch) : ProcessedEvent :=
  let sources := default [] (sources_gathered w) in
  let numSources := length sources in
  let uniqueLabels :=
    JS.newSet (omap (fun s => match label s with
                              | Some l => if JS.truthy l then Some l else None
                              | None => None
                              end) sources) in
  let exampleLabels := JS.join ", " (JS.slice0 3 uniqueLabels) in
  {| title := "Web Research";
     data := "Gathered " ++ JS.toString (N.of_nat numSources)
             ++ " sources. Related to: "
             ++ JS.or_else (Some exampleLabels) "N/A" ++ "." |}.

(** The [if]/[else if] chain of [onUpdateEvent]: the record for the
    notification, if any, and whether the finalize branch was taken. *)
Definition classify (event : UpdateEvent) : option ProcessedEvent * bool :=
  match generate_query event with
  | Some g =>
      (Some {| title := "Generating Search Queries";
               data := JS.or_else (JS.join ", " <$> search_query g) "" |},
       false)
  | None =>
  match web_research event with
  | Some w => (Some (webResearchEvent w), false)
  | None =>
  match reflection event with
  | Some _ =>
      (Some {| title := "Reflection";
               data := "Analysing Web Research Results" |},
       false)
  | None =>
  match finalize_answer event with
  | Some _ =>
      (Some {| title := "Finalizing Answer";
               data := "Composing and presenting the final answer." |},
       true)
  | None => (None, false)
  end end end end.

(** [onUpdateEvent]: the finalize branch raises the latch; a record, when
    there is one, is appended to the live timeline. *)
Definition onUpdateEvent (event : UpdateEvent) (s : AppState) : AppState :=
  let '(processedEvent, finalize) := classify event in
  let s := if finalize then assignFinalizeRef true s else s in
  match processedEvent with
  | Some e => setProcessedEventsTimeline (fun prevEvents => (prevEvents ++ [e])%list) s
  | None => s
  end.

(** [onError]. *)
Definition onError (message : string) (s : AppState) : AppState :=
  setError (Some message) s.

(** ** The archive effect

    The body of the [useEffect] that watches [thread.messages],
    [thread.isLoading] and [processedEventsTimeline]. *)
Definition archiveEffect (thread : Thread) (s : AppState) : AppState :=
  if hasFinalizeEventOccurredRef s
     && negb (isLoading thread)
     && bool_decide (0 < length (messages thread))
  then
    let lastMessage := messages thread !! (length (messages thread) - 1) in
    let s' :=
      match lastMessage with
      | Some m =>
          match id m with
          | Some i =>
              if String.eqb (type m) "ai" && JS.truthy i
              then setHistoricalActivities
                     (fun prev => <[ i := processedEventsTimeline s ]> prev) s
              else s
          | None => s
          end
      | None => s
      end in
    assignFinalizeRef false s'
  else s.

(** ** Submission *)

(** The [switch] on [effort]: [(initial_search_query_count,
    max_research_loops)]. *)
Definition effortCounts (effort : string) : nat * nat :=
  if String.eqb effort "low" then (1, 1)
  else if String.eqb effort "medium" then (3, 3)
  else if String.eqb effort "high" then (5, 10)
  else (0, 0).

(** The text of the new human message. *)
Definition combinedInput (backgroundContext : option string)
    (submittedInputValue : string) : string :=
  match backgroundContext with
  | Some c =>
      if JS.truthy c
      then "Background Context:" ++ JS.LF ++ c ++ JS.LF ++ JS.LF
           ++ "User Query:" ++ JS.LF ++ submittedInputValue
      else submittedInputValue
  | None => submittedInputValue
  end.

(** [handleSubmit]; [now] is the value of [Date.now()].  The result is the
    next state and the payload [thread.submit] was called with, if it was
    called. *)
Definition handleSubmit (submittedInputValue effort model : string)
    (thread : Thread) (now : N) (s : AppState) : AppState * option Payload.t :=
  if negb (JS.truthy (JS.trim submittedInputValue)) then (s, None)
  else
    let s := setProcessedEventsTimeline (fun _ => []) s in
    let s := assignFinalizeRef false s in
    let '(initial_search_query_count, max_research_loops) := effortCounts effort in
    let newMessages :=
      (messages thread
       ++ [ {| type := "human";
               content := combinedInput (backgroundContext s) submittedInputValue;
               id := Some (JS.toString now) |} ])%list in
    (s, Some {| Payload.messages := newMessages;
                Payload.initial_search_query_count := initial_search_query_count;
                Payload.max_research_loops := max_research_loops;
                Payload.reasoning_model := model |}).

(** [clearBackgroundContext]. *)
Definition clearBackgroundContext (s : AppState) : AppState :=
  setBackgroundContext None s.

(** The [onSendToCopilot] callback handed to both widgets. *)
Definition onSendToCopilot (context : string) (s : AppState) : AppState :=
  setBackgroundContext (Some context) s.

(** ** Runs of the component

    What can happen to the component between two renders: the stream
    delivers an update notification or an error, the archive effect runs
    against the thread values of the current render, the user submits,
    a widget forwards a context, the context banner is dismissed, or the
    user navigates. *)
Inductive Action :=
| Update (event : UpdateEvent)
| Settle (thread : Thread)
| Submit (submittedInputValue effort model : string) (thread : Thread) (now : N)
| SendToCopilot (context : string)
| ClearContext
| StreamError (message : string)
| Navigate (page : PageType).

Definition step (a : Action) (s : AppState) : AppState * option Payload.t :=
  match a with
  | Update event => (onUpdateEvent event s, None)
  | Settle thread => (archiveEffect thread s, None)
  | Submit input effort model thread now => handleSubmit input effort model thread now s
  | SendToCopilot context => (onSendToCopilot context s, None)
  | ClearContext => (clearBackgroundContext s, None)
  | StreamError message => (onError message s, None)
  | Navigate page => (setCurrentPage page s, None)
  end.

(** The state after a run and the payloads submitted during it, oldest
    first. *)
Fixpoint run (tr : list Action) (s : AppState) : AppState * list Payload.t :=
  match tr with
  | [] => (s, [])
  | a :: tr' =>
      let '(s1, p) := step a s in
      let '(s2, ps) := run tr' s1 in
      (s2, match p with Some x => x :: ps | None => ps end)
  end.

(** ** Vocabulary of the properties *)

(** The four recognised phase keys, in the order the classifier tests
    them. *)
Inductive PhaseKey := GenerateQueryKey | WebResearchKey | ReflectionKey | FinalizeAnswerKey.

#[global] Instance PhaseKey_eq_dec : EqDecision PhaseKey.
Proof. solve_decision. Defined.

Definition precedence : list PhaseKey :=
  [GenerateQueryKey; WebResearchKey; ReflectionKey; FinalizeAnswerKey].

(** The notification has a (non-null) property of that name. *)
Definition carries (event : UpdateEvent) (k : PhaseKey) : bool :=
  match k with
  | GenerateQueryKey => bool_decide (is_Some (generate_query event))
  | WebResearchKey => bool_decide (is_Some (web_research event))
  | ReflectionKey => bool_decide (is_Some (reflection event))
  | FinalizeAnswerKey => bool_decide (is_Some (finalize_answer event))
  end.

(** The recognised keys a notification carries, by precedence. *)
Definition carried (event : UpdateEvent) : list PhaseKey :=
  filter (fun k => carries event k = true) precedence.

(** The notification with every recognised key but [k] removed. *)
Definition restrictTo (k : PhaseKey) (event : UpdateEvent) : UpdateEvent :=
  {| generate_query := if k is GenerateQueryKey then generate_query event else None;
     web_research := if k is WebResearchKey then web_research event else None;
     reflection := if k is ReflectionKey then reflection event else None;
     finalize_answer := if k is FinalizeAnswerKey then finalize_answer event else None |}.

(** The title shown for each phase. *)
Definition phaseTitle (k : PhaseKey) : string :=
  match k with
  | GenerateQueryKey => "Generating Search Queries"
  | WebResearchKey => "Web Research"
  | ReflectionKey => "Reflection"
  | FinalizeAnswerKey => "Finalizing Answer"
  end.

(** A string without any code unit other than white space (the empty
    string included). *)
Fixpoint blank (s : string) : bool :=
  match s with
  | EmptyString => true
  | String c s' => JS.isWhiteSpace c && blank s'
  end.

(** The labels a summary may show, described without a [Set]: the
    non-empty labels of the sources, each at its first occurrence only. *)
Definition nonEmptyLabels (sources : list Source) : list string :=
  omap (fun s => match label s with
                 | Some l => if bool_decide (l = "") then None else Some l
                 | None => None
                 end) sources.

Fixpoint firstOccurrences (l : list string) : list string :=
  match l with
  | [] => []
  | x :: l' => x :: filter (fun y => y <> x) (firstOccurrences l')
  end.

(** The summary line in the documentation's words: the number of sources,
    then the first three distinct non-empty labels, or N/A without any. *)
Definition summaryOf (sources : list Source) : string :=
  "Gathered " ++ JS.toString (N.of_nat (length sources))
  ++ " sources. Related to: "
  ++ match take 3 (firstOccurrences (nonEmptyLabels sources)) with
     | [] => "N/A"
     | labels => JS.join ", " labels
     end
  ++ ".".

(** The actions that write the background-context cell. *)
Definition writesContext (a : Action) : bool :=
  match a with
  | SendToCopilot _ | ClearContext => true
  | _ => false
  end.

(** The inputs of a run that pass the guard of [handleSubmit], oldest
    first. *)
Definition submittedInputs (tr : list Action) : list string :=
  omap (fun a => match a with
                 | Submit input _ _ _ _ => if blank input then None else Some input
                 | _ => None
                 end) tr.

(** The text of the message a payload adds to the conversation. *)
Definition newText (p : Payload.t) : option string :=
  content <$> last (Payload.messages p).

(** The archive effect stores a snapshot: its guards, read off the effect. *)
Definition archives (thread : Thread) (s : AppState) : bool :=
  hasFinalizeEventOccurredRef s
  && negb (isLoading thread)
  && match last (messages thread) with
     | Some m => String.eqb (type m) "ai" && JS.truthy_opt (id m)
     | None => false
     end.

(** How many steps of a run store a snapshot, and how many notifications of
    a run are classified as the finalize phase. *)
Fixpoint archiveCount (tr : list Action) (s : AppState) : nat :=
  match tr with
  | [] => 0
  | a :: tr' =>
      (match a with
       | Settle thread => if archives thread s then 1 else 0
       | _ => 0
       end) + archiveCount tr' (step a s).1
  end.

Definition isFinalizeUpdate (a : Action) : bool :=
  match a with
  | Update event => (classify event).2
  | _ => false
  end.

Definition finalizeCount (tr : list Action) : nat :=
  length (filter (fun a => isFinalizeUpdate a = true) tr).

(** ** The arrays of the component as objects

    In JavaScript an array is an object, and a state cell or a property
    holds a reference to it.  This second reading of the three callbacks
    that handle arrays keeps every array the component creates in a heap:
    an array literal or a spread allocates, and a cell holds the index of
    its array.  It tells a stored snapshot from a stored alias. *)
Module Store.

Definition loc := nat.

Record State := {
  heap : list (list ProcessedEvent);
  processedEventsTimeline : loc;
  historicalActivities : gmap string loc;
  hasFinalizeEventOccurredRef : bool
}.

(** The elements of the array at a reference. *)
Definition elements (h : list (list ProcessedEvent)) (l : loc) : list ProcessedEvent :=
  default [] (h !! l).

(** A new array object with the given elements. *)
Definition alloc (a : list ProcessedEvent) (h : list (list ProcessedEvent))
  : loc * list (list ProcessedEvent) :=
  (length h, (h ++ [a])%list).

Definition initialState : State := {|
  heap := [[]];
  processedEventsTimeline := 0;
  historicalActivities := ∅;
  hasFinalizeEventOccurredRef := false
|}.

(** [[...prevEvents, processedEvent]] is a new array. *)
Definition onUpdateEvent (event : UpdateEvent) (st : State) : State :=
  let '(processedEvent, finalize) := classify event in
  let latch := if finalize then true else hasFinalizeEventOccurredRef st in
  match processedEvent with
  | Some e =>
      let prevEvents := elements (heap st) (processedEventsTimeline st) in
      let '(l, h) := alloc (prevEvents ++ [e])%list (heap st) in
      {| heap := h;
         processedEventsTimeline := l;
         historicalActivities := historicalActivities st;
         hasFinalizeEventOccurredRef := latch |}
  | None =>
      {| heap := heap st;
         processedEventsTimeline := processedEventsTimeline st;
         historicalActivities := historicalActivities st;
         hasFinalizeEventOccurredRef := latch |}
  end.

(** [[...processedEventsTimeline]] is a new array with the elements of
    the timeline. *)
Definition archiveEffect (thread : Thread) (st : State) : State :=
  if hasFinalizeEventOccurredRef st
     && negb (isLoading thread)
     && bool_decide (0 < length (messages thread))
  then
    let lastMessage := messages thread !! (length (messages thread) - 1) in
    let '(h, hist) :=
      match lastMessage with
      | Some m =>
          match id m with
          | Some i =>
              if String.eqb (type m) "ai" && JS.truthy i
              then
                let '(l, h) :=
                  alloc (elements (heap st) (processedEventsTimeline st)) (heap st) in
                (h, <[ i := l ]> (historicalActivities st))
              else (heap st, historicalActivities st)
          | None => (heap st, historicalActivities st)
          end
      | None => (heap st, historicalActivities st)
      end in
    {| heap := h;
       processedEventsTimeline := processedEventsTimeline st;
       historicalActivities := hist;
       hasFinalizeEventOccurredRef := false |}
  else st.

(** The part of [handleSubmit] that concerns the timeline: [[]] is a new
    array. *)
Definition handleSubmit (submittedInputValue : string) (st : State) : State :=
  if negb (JS.truthy (JS.trim submittedInputValue)) then st
  else
    let '(l, h) := alloc [] (heap st) in
    {| heap := h;
       processedEventsTimeline := l;
       historicalActivities := historicalActivities st;
       hasFinalizeEventOccurredRef := false |}.

(** Every reference held by a cell points into the heap. *)
Definition wf (st : State) : Prop :=
  processedEventsTimeline st < length (heap st)
  /\ map_Forall (fun _ l => l < length (heap st)) (historicalActivities st).

Inductive Op :=
| OpUpdate (event : UpdateEvent)
| OpSettle (thread : Thread)
| OpSubmit (submittedInputValue : string).

Definition apply (o : Op) (st : State) : State :=
  match o with
  | OpUpdate event => onUpdateEvent event st
  | OpSettle thread => archiveEffect thread st
  | OpSubmit input => handleSubmit input st
  end.

End Store.

(** The reference-level state [st] is read as the value-level state [s]. *)
Definition reads_as (st : Store.State) (s : AppState) : Prop :=
  Store.elements (Store.heap st) (Store.processedEventsTimeline st)
  = processedEventsTimeline s
  /\ (forall k, Store.elements (Store.heap st) <$> Store.historicalActivities st !! k
                = historicalActivities s !! k)
  /\ Store.hasFinalizeEventOccurredRef st = hasFinalizeEventOccurredRef s.

(** ** Sample values *)

Definition sourceLabelled (l : string) : Source := {| label := Some l |}.

Definition sampleSources : list Source :=
  [sourceLabelled "A"; sourceLabelled "A"; sourceLabelled "B";
   sourceLabelled "C"; sourceLabelled "D"].

Definition noKeyEvent : UpdateEvent :=
  {| generate_query := None; web_research := None;
     reflection := None; finalize_answer := None |}.

Definition reflectionEvent : UpdateEvent :=
  {| generate_query := None; web_research := None;
     reflection := Some (); finalize_answer := None |}.

Definition finalizeEvent : UpdateEvent :=
  {| generate_query := None; web_research := None;
     reflection := None; finalize_answer := Some () |}.

Definition webResearchSample : WebResearch :=
  {| sources_gathered := Some sampleSources |}.

Definition webResearchEventSample : UpdateEvent :=
  {| generate_query := None; web_research := Some webResearchSample;
     reflection := None; finalize_answer := None |}.

(** A notification with both [generate_query] and [web_research]. *)
Definition twoKeyEvent : UpdateEvent :=
  {| generate_query := Some {| search_query := Some ["q"] |};
     web_research := Some webResearchSample;
     reflection := None; finalize_answer := None |}.

(** A notification with every key but [generate_query]. *)
Definition threeKeyEvent : UpdateEvent :=
  {| generate_query := None;
     web_research := Some {| sources_gathered := None |};
     reflection := Some (); finalize_answer := Some () |}.

Definition idleThread : Thread := {| messages := []; isLoading := false |}.

(** The thread once the reply [m1] to the question [h1] is complete. *)
Definition settledThread : Thread :=
  {| messages := [ {| type := "human"; content := "Q"; id := Some "h1" |};
                   {| type := "ai"; content := "R"; id := Some "m1" |} ];
     isLoading := false |}.

(** The state after a forwarded context [C], and after the finalize
    notification of an exchange. *)
Definition contextState : AppState := onSendToCopilot "C" initialState.

Definition pendingState : AppState := onUpdateEvent finalizeEvent contextState.

(** The reference-level state after the finalize notification of an
    exchange. *)
Definition pendingStore : Store.State :=
  Store.onUpdateEvent finalizeEvent Store.initialState.

(** * The rest of the component and its neighbours *)

(** ** The main area of [App]

    The error panel replaces the page while the error cell holds a truthy
    message. *)
Inductive MainContent :=
| ErrorPanel (message : string)
| PageContent (page : PageType).

Definition mainContent (s : AppState) : MainContent :=
  match error s with
  | Some e => if JS.truthy e then ErrorPanel e else PageContent (currentPage s)
  | None => PageContent (currentPage s)
  end.

(** ** Readings of a run *)

(** The record of the finalize branch. *)
Definition finalizeRecord : ProcessedEvent :=
  {| title := "Finalizing Answer";
     data := "Composing and presenting the final answer." |}.

(** The records the notifications of a run are classified as, oldest
    first. *)
Definition recordsOf (tr : list Action) : list ProcessedEvent :=
  omap (fun a => match a with
                 | Update event => (classify event).1
                 | _ => None
                 end) tr.

(** The messages of the stream errors of a run, oldest first. *)
Definition errorsOf (tr : list Action) : list string :=
  omap (fun a => match a with
                 | StreamError message => Some message
                 | _ => None
                 end) tr.

(** The action is an effect run whose thread ends with a message of
    identity [k]. *)
Definition settlesAt (k : string) (a : Action) : bool :=
  match a with
  | Settle thread => bool_decide (last (messages thread) ≫= id = Some k)
  | _ => false
  end.

(** What holds of the accumulator in every state a run can reach: with the
    latch up the live timeline holds the finalize record, and every stored
    trace holds it too, under a non-empty key. *)
Definition finalizeSeen (s : AppState) : Prop :=
  (hasFinalizeEventOccurredRef s = true -> finalizeRecord ∈ processedEventsTimeline s)
  /\ map_Forall (fun k v => k <> "" /\ finalizeRecord ∈ v) (historicalActivities s).

Definition knownTitle (e : ProcessedEvent) : Prop :=
  title e ∈ phaseTitle <$> precedence.

(** ** The input form

    [InputForm]: the text area, the two selectors and the submit paths.
    A handler returns the next state and the arguments [onSubmit] was called
    with, if it was called. *)
Module InputForm.

Record State := {
  internalInputValue : string;
  effort : string;
  model : string
}.

Definition initialState : State := {|
  internalInputValue := "";
  effort := "medium";
  model := "gemini-2.0-flash"
|}.

Definition handleInternalSubmit (st : State)
  : State * option (string * string * string) :=
  if negb (JS.truthy (JS.trim (internalInputValue st))) then (st, None)
  else
    ({| internalInputValue := ""; effort := effort st; model := model st |},
     Some (internalInputValue st, effort st, model st)).

Definition handleKeyDown (key : string) (ctrlKey metaKey : bool) (st : State)
  : State * option (string * string * string) :=
  if String.eqb key "Enter" && (ctrlKey || metaKey) then handleInternalSubmit st
  else (st, None).

Definition isSubmitDisabled (isLoading : bool) (st : State) : bool :=
  negb (JS.truthy (JS.trim (internalInputValue st))) || isLoading.

(** The items of the two selectors and their values. *)
Inductive EffortItem := Low | Medium | High.

Definition effortValue (i : EffortItem) : string :=
  match i with
  | Low => "low"
  | Medium => "medium"
  | High => "high"
  end.

Inductive ModelItem := Flash20 | Flash25 | Pro25.

Definition modelValue (i : ModelItem) : string :=
  match i with
  | Flash20 => "gemini-2.0-flash"
  | Flash25 => "gemini-2.5-flash-preview-04-17"
  | Pro25 => "gemini-2.5-pro-preview-05-06"
  end.

(** What the user can do to the form. *)
Inductive Event :=
| Change (value : string)
| SelectEffort (i : EffortItem)
| SelectModel (i : ModelItem)
| SubmitForm
| KeyDown (key : string) (ctrlKey metaKey : bool).

Definition step (e : Event) (st : State) : State * option (string * string * string) :=
  match e with
  | Change value =>
      ({| internalInputValue := value; effort := effort st; model := model st |}, None)
  | SelectEffort i =>
      ({| internalInputValue := internalInputValue st;
          effort := effortValue i; model := model st |}, None)
  | SelectModel i =>
      ({| internalInputValue := internalInputValue st;
          effort := effort st; model := modelValue i |}, None)
  | SubmitForm => handleInternalSubmit st
  | KeyDown key ctrlKey metaKey => handleKeyDown key ctrlKey metaKey st
  end.

(** The state after a series of events and the [onSubmit] calls made,
    oldest first. *)
Fixpoint run (es : list Event) (st : State)
  : State * list (string * string * string) :=
  match es with
  | [] => (st, [])
  | e :: es' =>
      let '(st1, c) := step e st in
      let '(st2, cs) := run es' st1 in
      (st2, match c with Some x => x :: cs | None => cs end)
  end.

End InputForm.

(** ** The sidebar

    [CopilotSidebar]: the resize handle, and what is drawn for the
    conversation.  Pointer coordinates and widths are integers. *)
Module Sidebar.

Record State := {
  copiedMessageId : option string;
  isCollapsed : bool;
  isDragging : bool;
  startX : Z;
  sidebarWidth : Z;
  isMinimized : bool
}.

Definition initialState : State := {|
  copiedMessageId := None;
  isCollapsed := false;
  isDragging := false;
  startX := 0;
  sidebarWidth := 320;
  isMinimized := false
|}.

Definition handleMouseDown (clientX : Z) (st : State) : State :=
  {| copiedMessageId := copiedMessageId st;
     isCollapsed := isCollapsed st;
     isDragging := true;
     startX := clientX;
     sidebarWidth := sidebarWidth st;
     isMinimized := isMinimized st |}.

Definition handleMouseMove (clientX : Z) (st : State) : State :=
  if negb (isDragging st) then st
  else
    let deltaX := (startX st - clientX)%Z in
    let newWidth := Z.max 280 (Z.min 500 (sidebarWidth st + deltaX)) in
    {| copiedMessageId := copiedMessageId st;
       isCollapsed := isCollapsed st;
       isDragging := isDragging st;
       startX := clientX;
       sidebarWidth := newWidth;
       isMinimized := isMinimized st |}.

Definition handleMouseUp (st : State) : State :=
  {| copiedMessageId := copiedMessageId st;
     isCollapsed := isCollapsed st;
     isDragging := false;
     startX := startX st;
     sidebarWidth := sidebarWidth st;
     isMinimized := isMinimized st |}.

Definition setIsCollapsed (b : bool) (st : State) : State :=
  {| copiedMessageId := copiedMessageId st;
     isCollapsed := b;
     isDragging := isDragging st;
     startX := startX st;
     sidebarWidth := sidebarWidth st;
     isMinimized := isMinimized st |}.

Definition setIsMinimized (b : bool) (st : State) : State :=
  {| copiedMessageId := copiedMessageId st;
     isCollapsed := isCollapsed st;
     isDragging := isDragging st;
     startX := startX st;
     sidebarWidth := sidebarWidth st;
     isMinimized := b |}.


Inductive Event :=
| MouseDown (clientX : Z)
| MouseMove (clientX : Z)
| MouseUp
| SetCollapsed (b : bool)
| SetMinimized (b : bool).

Definition step (e : Event) (st : State) : State :=
  match e with
  | MouseDown x => handleMouseDown x st
  | MouseMove x => handleMouseMove x st
  | MouseUp => handleMouseUp st
  | SetCollapsed b => setIsCollapsed b st
  | SetMinimized b => setIsMinimized b st
  end.

Definition run (es : list Event) (st : State) : State :=
  foldl (fun st e => step e st) st es.

(** *** The conversation *)

(** What is drawn for one message: for a message that is not the user's,
    [activity] is the timeline shown above the text, if one is shown, and
    [live] tells whether it is shown as still running. *)
Inductive Bubble :=
| HumanBubble (message : Message)
| AiBubble (message : Message) (activity : option (list ProcessedEvent)) (live : bool).

(** [historicalActivities[message.id!]]: an absent identity reads the
    property named undefined. *)
Definition activityKey (message : Message) : string :=
  default "undefined" (id message).

Definition activityForThisBubble
    (historicalActivity : option (list ProcessedEvent))
    (liveActivity : list ProcessedEvent)
    (isLastMessage isOverallLoading : bool) : option (list ProcessedEvent) :=
  if isLastMessage && isOverallLoading then Some liveActivity else historicalActivity.

(** The timeline is drawn when there is one and it is not empty. *)
Definition drawn (activity : option (list ProcessedEvent))
  : option (list ProcessedEvent) :=
  match activity with
  | Some events => if bool_decide (0 < length events) then Some events else None
  | None => None
  end.

Definition renderMessage (messages : list Message) (isLoading : bool)
    (liveActivityEvents : list ProcessedEvent)
    (historicalActivities : gmap string (list ProcessedEvent))
    (index : nat) (message : Message) : Bubble :=
  let isLast := bool_decide (index = length messages - 1) in
  if String.eqb (type message) "human" then HumanBubble message
  else
    AiBubble message
      (drawn (activityForThisBubble (historicalActivities !! activityKey message)
                liveActivityEvents isLast isLoading))
      (isLast && isLoading).

Definition renderMessages (messages : list Message) (isLoading : bool)
    (liveActivityEvents : list ProcessedEvent)
    (historicalActivities : gmap string (list ProcessedEvent)) : list Bubble :=
  imap (renderMessage messages isLoading liveActivityEvents historicalActivities)
    messages.

(** The panel under the conversation while a reply is awaited. *)
Inductive Pending :=
| PendingTimeline (events : list ProcessedEvent)
| PendingSpinner.

Definition pendingPanel (messages : list Message) (isLoading : bool)
    (liveActivityEvents : list ProcessedEvent) : option Pending :=
  if isLoading
     && (bool_decide (length messages = 0)
         || match messages !! (length messages - 1) with
            | Some m => String.eqb (type m) "human"
            | None => false
            end)
  then Some (if bool_decide (0 < length liveActivityEvents)
             then PendingTimeline liveActivityEvents
             else PendingSpinner)
  else None.

End Sidebar.

(** [App] hands its thread and its state to the sidebar. *)
Definition sidebarBubbles (thread : Thread) (s : AppState) : list Sidebar.Bubble :=
  Sidebar.renderMessages (messages thread) (isLoading thread)
    (processedEventsTimeline s) (historicalActivities s).

Definition sidebarPending (thread : Thread) (s : AppState) : option Sidebar.Pending :=
  Sidebar.pendingPanel (messages thread) (isLoading thread)
    (processedEventsTimeline s).

(** The bubble shows the live timeline as still running. *)
Definition bubbleIsLive (b : Sidebar.Bubble) : bool :=
  match b with
  | Sidebar.AiBubble _ _ live => live
  | Sidebar.HumanBubble _ => false
  end.

(** The values the two selectors of the form can give. *)
Definition effortValues : list string :=
  InputForm.effortValue <$> [InputForm.Low; InputForm.Medium; InputForm.High].

Definition modelValues : list string :=
  InputForm.modelValue <$> [InputForm.Flash20; InputForm.Flash25; InputForm.Pro25].

(** The form of the sidebar calls [handleSubmit] of [App]. *)
Definition submitThroughForm (e : InputForm.Event) (thread : Thread) (now : N)
    (form : InputForm.State) (s : AppState)
  : InputForm.State * AppState * option Payload.t :=
  match InputForm.step e form with
  | (form', Some (value, effort, model)) =>
      let '(s', p) := handleSubmit value effort model thread now s in
      (form', s', p)
  | (form', None) => (form', s, None)
  end.

(** ** The widgets *)

(** The numbers the widgets compute with: an integer, or [NaN] ([None]). *)
Module JSNumber.

Definition lt (x : option Z) (y : Z) : bool :=
  match x with
  | Some a => bool_decide (a < y)%Z
  | None => false
  end.

(** [Math.floor(x / d)]. *)
Definition floorDiv (x : option Z) (d : Z) : option Z :=
  (fun a => (a `div` d)%Z) <$> x.

Definition toString (x : option Z) : string :=
  match x with
  | Some a =>
      if bool_decide (a < 0)%Z then "-" ++ JS.toString (Z.to_N (- a))
      else JS.toString (Z.to_N a)
  | None => "NaN"
  end.

End JSNumber.

(** [formatTimeAgo], the same in both widgets.  [date] is
    [new Date(dateString).getTime()], [NaN] for a string that is not a date;
    [now] is [new Date().getTime()]. *)
Definition formatTimeAgo (date : option Z) (now : Z) : string :=
  let diffInMinutes :=
    JSNumber.floorDiv ((fun d => (now - d)%Z) <$> date) (1000 * 60) in
  if JSNumber.lt diffInMinutes 1 then "Just now"
  else if JSNumber.lt diffInMinutes 60
  then JSNumber.toString diffInMinutes ++ "m ago"
  else if JSNumber.lt diffInMinutes 1440
  then JSNumber.toString (JSNumber.floorDiv diffInMinutes 60) ++ "h ago"
  else JSNumber.toString (JSNumber.floorDiv diffInMinutes 1440) ++ "d ago".

(** [handleSendToCopilot] of the news widget.  The text of one article
    involves the clock and the formatting of fractions, and is left
    open. *)
Section NewsWidget.

Variable NewsArticle : Type.
Variable articleText : nat -> NewsArticle -> string.

Definition newsContext (news : list NewsArticle) : string :=
  "I'm currently viewing the following financial news articles. Please help me analyze these stories and provide insights:"
  ++ JS.LF ++ JS.LF
  ++ JS.join JS.LF (imap articleText news)
  ++ JS.LF ++ JS.LF
  ++ "Please provide analysis on:" ++ JS.LF
  ++ "1. Key themes and trends across these articles" ++ JS.LF
  ++ "2. Potential market implications" ++ JS.LF
  ++ "3. Companies or sectors to watch" ++ JS.LF
  ++ "4. Any notable sentiment patterns" ++ JS.LF
  ++ "5. Questions I should consider about these developments".

(** The context handed to [onSendToCopilot], if the callback is called. *)
Definition newsSendToCopilot (news : list NewsArticle) : option string :=
  if bool_decide (length news = 0) then None else Some (newsContext news).

End NewsWidget.

(** * Properties *)

(** ** The primitives *)

Example trim_ex : JS.trim "  a b  " = "a b".
Proof. reflexivity. Qed.

Example join_ex : JS.join ", " ["a"; "b"; "c"] = "a, b, c".
Proof. reflexivity. Qed.

Example toString_ex : JS.toString 120 = "120" /\ JS.toString 0 = "0".
Proof. split; reflexivity. Qed.

Example newSet_ex : JS.newSet ["A"; "B"; "A"; "C"] = ["A"; "B"; "C"].
Proof. reflexivity. Qed.

Lemma truthy_nonempty (s : string) : JS.truthy s = true <-> s <> "".
Proof. destruct s; simpl; split; congruence. Qed.

Lemma truthy_empty (s : string) : JS.truthy s = false <-> s = "".
Proof. destruct s; simpl; split; congruence. Qed.

Lemma trimEnd_empty (s : string) : JS.trimEnd s = "" <-> blank s = true.
Proof.
  induction s as [|c s' IH]; simpl; [done|].
  destruct (JS.trimEnd s') as [|c' t] eqn:E.
  - assert (Hb : blank s' = true) by (by apply IH).
    rewrite Hb, andb_true_r.
    destruct (JS.isWhiteSpace c); split; congruence.
  - assert (Hb : blank s' = false).
    { destruct (blank s') eqn:B; [|done].
      assert (String c' t = "") by (by apply IH). discriminate. }
    rewrite Hb, andb_false_r. split; discriminate.
Qed.

Lemma trimStart_cases (s : string) :
  (blank s = true /\ JS.trimStart s = "")
  \/ (blank s = false
      /\ exists c t, JS.trimStart s = String c t /\ JS.isWhiteSpace c = false).
Proof.
  induction s as [|c s' IH]; simpl; [by left|].
  destruct (JS.isWhiteSpace c) eqn:W; simpl; [exact IH|].
  right. split; [done|]. by exists c, s'.
Qed.

(** [!s.trim()] holds exactly for the blank strings. *)
Lemma trim_truthy (s : string) : JS.truthy (JS.trim s) = negb (blank s).
Proof.
  unfold JS.trim.
  destruct (trimStart_cases s) as [[-> ->]|[-> (c & t & -> & W)]]; simpl; [done|].
  rewrite W. by destruct (JS.trimEnd t).
Qed.

(** ** Submission *)

Lemma handleSubmit_blank input effort model thread now s :
  blank input = true -> handleSubmit input effort model thread now s = (s, None).
Proof. intros B. unfold handleSubmit. by rewrite trim_truthy, B. Qed.

Lemma handleSubmit_nonblank input effort model thread now s :
  blank input = false ->
  handleSubmit input effort model thread now s =
    (assignFinalizeRef false (setProcessedEventsTimeline (fun _ => []) s),
     Some {| Payload.messages :=
               (messages thread
                ++ [ {| type := "human";
                        content := combinedInput (backgroundContext s) input;
                        id := Some (JS.toString now) |} ])%list;
             Payload.initial_search_query_count := (effortCounts effort).1;
             Payload.max_research_loops := (effortCounts effort).2;
             Payload.reasoning_model := model |}).
Proof.
  intros B. unfold handleSubmit. rewrite trim_truthy, B. simpl.
  by destruct (effortCounts effort).
Qed.

Lemma effortCounts_other (effort : string) :
  effort <> "low" -> effort <> "medium" -> effort <> "high" ->
  effortCounts effort = (0, 0).
Proof.
  intros H1 H2 H3. unfold effortCounts.
  by rewrite (proj2 (String.eqb_neq _ _) H1), (proj2 (String.eqb_neq _ _) H2),
    (proj2 (String.eqb_neq _ _) H3).
Qed.

(** C5. For a submission with non-blank input, [thread.submit] is called
    with the prior messages followed by one new human message, the two
    counts of the effort table and the selected model.  The text of the new
    message is the input wrapped in the background-context preamble when a
    (non-empty) background context is held, and the input itself
    otherwise. *)
Theorem submission_payload
    (input effort model : string) (thread : Thread) (now : N) (s : AppState) :
  blank input = false ->
  exists text p,
    (handleSubmit input effort model thread now s).2 = Some p
    /\ Payload.messages p
       = (messages thread
          ++ [ {| type := "human"; content := text; id := Some (JS.toString now) |} ])%list
    /\ Payload.reasoning_model p = model
    /\ (forall c, backgroundContext s = Some c -> c <> "" ->
          text = "Background Context:" ++ JS.LF ++ c ++ JS.LF ++ JS.LF
                 ++ "User Query:" ++ JS.LF ++ input)
    /\ (backgroundContext s = None \/ backgroundContext s = Some "" -> text = input)
    /\ (effort = "low" ->
          Payload.initial_search_query_count p = 1 /\ Payload.max_research_loops p = 1)
    /\ (effort = "medium" ->
          Payload.initial_search_query_count p = 3 /\ Payload.max_research_loops p = 3)
    /\ (effort = "high" ->
          Payload.initial_search_query_count p = 5 /\ Payload.max_research_loops p = 10)
    /\ (effort <> "low" -> effort <> "medium" -> effort <> "high" ->
          Payload.initial_search_query_count p = 0 /\ Payload.max_research_loops p = 0).
Proof.
  intros B. rewrite (handleSubmit_nonblank _ _ _ _ _ _ B). simpl.
  eexists _, _. split; [reflexivity|]. simpl.
  split; [reflexivity|]. split; [reflexivity|].
  split; [|split; [|split; [|split; [|split]]]].
  - intros c -> Hc. simpl. by rewrite (proj2 (truthy_nonempty c) Hc).
  - by intros [-> | ->].
  - by intros ->.
  - by intros ->.
  - by intros ->.
  - intros H1 H2 H3. by rewrite (effortCounts_other _ H1 H2 H3).
Qed.

Lemma submission_payload_witness :
  exists text p,
    (handleSubmit "Q" "high" "gemini-2.0-flash" idleThread 1700000000000
       contextState).2 = Some p
    /\ Payload.messages p
       = [ {| type := "human"; content := text; id := Some "1700000000000" |} ]
    /\ text = "Background Context:" ++ JS.LF ++ "C" ++ JS.LF ++ JS.LF
              ++ "User Query:" ++ JS.LF ++ "Q"
    /\ Payload.initial_search_query_count p = 5 /\ Payload.max_research_loops p = 10.
Proof.
  destruct (submission_payload "Q" "high" "gemini-2.0-flash" idleThread
              1700000000000 contextState eq_refl)
    as (text & p & Hp & Hm & _ & Hc & _ & _ & _ & Hh & _).
  exists text, p. split; [exact Hp|]. split; [exact Hm|].
  split; [apply (Hc "C"); [reflexivity | discriminate]|].
  by apply Hh.
Defined.

(** C7. [handleSubmit] calls [thread.submit] for every non-blank input,
    whatever the background context, and whenever it makes the call the
    live timeline has been emptied and the latch lowered: the state
    returned with the payload is the state the call is made in, since
    nothing follows the call.  No other cell is written. *)
Theorem submission_resets
    (input effort model : string) (thread : Thread) (now : N) (s : AppState) :
  (blank input = false ->
   is_Some (handleSubmit input effort model thread now s).2)
  /\ (forall p,
        (handleSubmit input effort model thread now s).2 = Some p ->
        processedEventsTimeline (handleSubmit input effort model thread now s).1 = []
        /\ hasFinalizeEventOccurredRef (handleSubmit input effort model thread now s).1
           = false
        /\ historicalActivities (handleSubmit input effort model thread now s).1
           = historicalActivities s
        /\ backgroundContext (handleSubmit input effort model thread now s).1
           = backgroundContext s).
Proof.
  destruct (blank input) eqn:B.
  - rewrite (handleSubmit_blank _ _ _ _ _ _ B). split; [done|]. by intros p.
  - rewrite (handleSubmit_nonblank _ _ _ _ _ _ B). simpl.
    split; [by eexists|]. by intros p _.
Qed.

Lemma submission_resets_witness :
  processedEventsTimeline pendingState <> []
  /\ hasFinalizeEventOccurredRef pendingState = true
  /\ backgroundContext pendingState = Some "C"
  /\ is_Some (handleSubmit "Q" "low" "m" idleThread 7 pendingState).2
  /\ processedEventsTimeline (handleSubmit "Q" "low" "m" idleThread 7 pendingState).1 = []
  /\ hasFinalizeEventOccurredRef (handleSubmit "Q" "low" "m" idleThread 7 pendingState).1
     = false.
Proof.
  split; [discriminate|]. split; [reflexivity|]. split; [reflexivity|].
  destruct (submission_resets "Q" "low" "m" idleThread 7 pendingState) as [H1 H2].
  specialize (H1 eq_refl). split; [exact H1|].
  destruct H1 as [p Hp]. destruct (H2 p Hp) as (H3 & H4 & _).
  exact (conj H3 H4).
Defined.

(** C9. For an input that is empty or made of white space only,
    [handleSubmit] returns at its guard: the state is the one it was called
    in, cell for cell, and [thread.submit] is not called. *)
Theorem blank_submission_noop
    (input effort model : string) (thread : Thread) (now : N) (s : AppState) :
  blank input = true ->
  handleSubmit input effort model thread now s = (s, None).
Proof. apply handleSubmit_blank. Qed.

Lemma blank_submission_noop_witness :
  handleSubmit (" " ++ JS.LF ++ "  ") "high" "m" settledThread 7 pendingState
  = (pendingState, None).
Proof.
  exact (blank_submission_noop (" " ++ JS.LF ++ "  ") "high" "m" settledThread 7
           pendingState eq_refl).
Defined.

(** ** The classifier *)

(** What [onUpdateEvent] does with the verdict of the chain. *)
Lemma onUpdateEvent_record event e fin s :
  classify event = (Some e, fin) ->
  processedEventsTimeline (onUpdateEvent event s) = (processedEventsTimeline s ++ [e])%list
  /\ historicalActivities (onUpdateEvent event s) = historicalActivities s
  /\ backgroundContext (onUpdateEvent event s) = backgroundContext s
  /\ hasFinalizeEventOccurredRef (onUpdateEvent event s)
     = (fin || hasFinalizeEventOccurredRef s).
Proof. intros H. unfold onUpdateEvent. rewrite H. by destruct fin. Qed.

Lemma onUpdateEvent_none event s :
  classify event = (None, false) -> onUpdateEvent event s = s.
Proof. intros H. unfold onUpdateEvent. by rewrite H. Qed.

Lemma classify_finalize_title event e :
  classify event = (Some e, true) -> title e = "Finalizing Answer".
Proof.
  destruct event as [[g|] [w|] [r|] [f|]]; cbn; intros H; by simplify_eq.
Qed.

Lemma classify_by_first_key event k rest :
  carried event = k :: rest ->
  exists d, classify event
            = (Some {| title := phaseTitle k; data := d |},
               bool_decide (k = FinalizeAnswerKey)).
Proof.
  destruct event as [[g|] [w|] [r|] [f|]]; vm_compute carried;
    intros H; simplify_eq; cbn; by eexists.
Qed.

(** C3. A notification that carries exactly one of the four recognised keys
    adds exactly one record to the live timeline, with the title of that
    phase, and the latch is raised only by the finalize key; a notification
    that carries none of them yields no record and leaves the whole state,
    timeline and latch included, as it was. *)
Theorem classifier_single_key :
  (forall event k s,
      carried event = [k] ->
      exists d,
        (classify event).1 = Some {| title := phaseTitle k; data := d |}
        /\ processedEventsTimeline (onUpdateEvent event s)
           = (processedEventsTimeline s ++ [ {| title := phaseTitle k; data := d |} ])%list
        /\ historicalActivities (onUpdateEvent event s) = historicalActivities s
        /\ hasFinalizeEventOccurredRef (onUpdateEvent event s)
           = (bool_decide (k = FinalizeAnswerKey) || hasFinalizeEventOccurredRef s))
  /\ (forall event s,
         carried event = [] ->
         (classify event).1 = None /\ onUpdateEvent event s = s).
Proof.
  split.
  - intros event k s H.
    destruct (classify_by_first_key _ _ _ H) as [d Hd].
    exists d. rewrite Hd. split; [done|].
    destruct (onUpdateEvent_record _ _ _ s Hd) as (H1 & H2 & _ & H4). done.
  - intros event s.
    destruct event as [[g|] [w|] [r|] [f|]]; vm_compute carried; intros H;
      simplify_eq.
    split; [done|]. by apply onUpdateEvent_none.
Qed.

Lemma classifier_single_key_witness :
  (exists d, processedEventsTimeline (onUpdateEvent reflectionEvent initialState)
             = [ {| title := "Reflection"; data := d |} ])
  /\ onUpdateEvent noKeyEvent pendingState = pendingState.
Proof.
  split.
  - destruct (proj1 classifier_single_key reflectionEvent ReflectionKey initialState
                eq_refl) as (d & _ & H & _).
    exists d. exact H.
  - exact (proj2 (proj2 classifier_single_key noKeyEvent pendingState eq_refl)).
Defined.

Lemma carried_restrictTo event k rest :
  carried event = k :: rest -> carried (restrictTo k event) = [k].
Proof.
  destruct event as [[g|] [w|] [r|] [f|]]; vm_compute carried;
    intros H; by simplify_eq.
Qed.

Lemma classify_restrictTo event k rest :
  carried event = k :: rest -> classify event = classify (restrictTo k event).
Proof.
  destruct event as [[g|] [w|] [r|] [f|]]; vm_compute carried;
    intros H; by simplify_eq.
Qed.

(** C8. Of the recognised keys a notification carries, the first in the
    order [generate_query], [web_research], [reflection],
    [finalize_answer] decides alone: the notification is classified as if
    it carried that key only, one record with that phase's title is
    appended, and when that key is not [finalize_answer] the latch is left
    as it was, whether or not [finalize_answer] is among the others. *)
Theorem classifier_precedence
    (event : UpdateEvent) (k : PhaseKey) (rest : list PhaseKey) (s : AppState) :
  carried event = k :: rest ->
  carried (restrictTo k event) = [k]
  /\ classify event = classify (restrictTo k event)
  /\ onUpdateEvent event s = onUpdateEvent (restrictTo k event) s
  /\ (exists d,
        processedEventsTimeline (onUpdateEvent event s)
        = (processedEventsTimeline s ++ [ {| title := phaseTitle k; data := d |} ])%list)
  /\ (k <> FinalizeAnswerKey ->
        hasFinalizeEventOccurredRef (onUpdateEvent event s)
        = hasFinalizeEventOccurredRef s).
Proof.
  intros H.
  split; [by eapply carried_restrictTo|].
  pose proof (classify_restrictTo _ _ _ H) as Hc.
  split; [exact Hc|].
  split; [unfold onUpdateEvent; by rewrite Hc|].
  destruct (classify_by_first_key _ _ _ H) as [d Hd].
  destruct (onUpdateEvent_record _ _ _ s Hd) as (H1 & _ & _ & H4).
  split; [by exists d|].
  intros Hk. rewrite H4. by rewrite bool_decide_eq_false_2.
Qed.

Lemma classifier_precedence_witness :
  carried threeKeyEvent = [WebResearchKey; ReflectionKey; FinalizeAnswerKey]
  /\ (exists d, processedEventsTimeline (onUpdateEvent threeKeyEvent initialState)
                = [ {| title := "Web Research"; data := d |} ])
  /\ hasFinalizeEventOccurredRef (onUpdateEvent threeKeyEvent initialState) = false.
Proof.
  destruct (classifier_precedence threeKeyEvent WebResearchKey
              [ReflectionKey; FinalizeAnswerKey] initialState eq_refl)
    as (_ & _ & _ & Hd & Hl).
  split; [reflexivity|]. split; [exact Hd|].
  apply Hl. discriminate.
Defined.

(** *** The web-research summary *)

Lemma firstOccurrences_elem (x : string) (l : list string) :
  x ∈ firstOccurrences l <-> x ∈ l.
Proof.
  induction l as [|y l IH]; simpl; [done|].
  rewrite !elem_of_cons, list_elem_of_filter, IH.
  destruct (decide (x = y)); tauto.
Qed.

Lemma firstOccurrences_NoDup (l : list string) : NoDup (firstOccurrences l).
Proof.
  induction l as [|y l IH]; simpl; [constructor|].
  constructor; [|by apply NoDup_filter].
  rewrite list_elem_of_filter. by intros [? _].
Qed.

(** A [Set] filled from an array lists its first occurrences. *)
Lemma setAddAll_firstOccurrences (seen l : list string) :
  JS.setAddAll seen l
  = (seen ++ filter (fun y => y ∉ seen) (firstOccurrences l))%list.
Proof.
  revert seen. induction l as [|x l IH]; intros seen; simpl.
  - by rewrite app_nil_r.
  - case_bool_decide as Hx.
    + rewrite IH. f_equal.
      rewrite filter_cons_False by (intros ?; done).
      rewrite list_filter_filter. apply list_filter_iff.
      intros y. split; [|tauto].
      intros Hy. split; [done|]. by intros ->.
    + rewrite IH, <- app_assoc. f_equal. simpl.
      rewrite filter_cons_True by done. f_equal.
      rewrite list_filter_filter. apply list_filter_iff.
      intros y. rewrite elem_of_app, list_elem_of_singleton. tauto.
Qed.

Lemma filter_all {A} (P : A -> Prop) `{forall x, Decision (P x)} (l : list A) :
  (forall x, x ∈ l -> P x) -> filter P l = l.
Proof.
  induction l as [|x l IH]; intros Hl; [done|].
  rewrite filter_cons_True by (apply Hl; by left).
  f_equal. apply IH. intros y Hy. apply Hl. by right.
Qed.

Lemma newSet_firstOccurrences (l : list string) :
  JS.newSet l = firstOccurrences l.
Proof.
  unfold JS.newSet. rewrite setAddAll_firstOccurrences. simpl.
  apply filter_all. intros y _. apply not_elem_of_nil.
Qed.

Lemma truthy_labels (sources : list Source) :
  omap (fun s => match label s with
                 | Some l => if JS.truthy l then Some l else None
                 | None => None
                 end) sources
  = nonEmptyLabels sources.
Proof.
  unfold nonEmptyLabels.
  induction sources as [|[[l|]] sources IH]; [done| |]; cbn; rewrite IH; [|done].
  by destruct l.
Qed.

Lemma nonEmptyLabels_nonempty (x : string) (sources : list Source) :
  x ∈ nonEmptyLabels sources -> x <> "".
Proof.
  unfold nonEmptyLabels. rewrite list_elem_of_omap.
  intros ([[l|]] & _ & H); simpl in H; [|done].
  case_bool_decide; by simplify_eq.
Qed.

Lemma join_truthy (sep x : string) (l : list string) :
  x <> "" -> JS.truthy (JS.join sep (x :: l)) = true.
Proof.
  intros Hx. destruct x as [|c x]; [done|]. by destruct l.
Qed.

Lemma webResearchEvent_summary (w : WebResearch) :
  webResearchEvent w
  = {| title := "Web Research";
       data := summaryOf (default [] (sources_gathered w)) |}.
Proof.
  unfold webResearchEvent, summaryOf, JS.slice0.
  rewrite truthy_labels, newSet_firstOccurrences.
  set (sources := default [] (sources_gathered w)).
  do 4 f_equal.
  destruct (take 3 (firstOccurrences (nonEmptyLabels sources))) as [|x l] eqn:E;
    [done|].
  unfold JS.or_else. rewrite join_truthy; [done|].
  apply (nonEmptyLabels_nonempty x sources), firstOccurrences_elem.
  assert (Hx : x ∈ take 3 (firstOccurrences (nonEmptyLabels sources)))
    by (rewrite E; by left).
  apply elem_of_take in Hx as (i & Hi & _).
  by eapply list_elem_of_lookup_2.
Qed.

Lemma classify_web_research event w :
  generate_query event = None -> web_research event = Some w ->
  classify event = (Some (webResearchEvent w), false).
Proof. intros Hg Hw. unfold classify. by rewrite Hg, Hw. Qed.

(** C4, as the code has it.  When the [web_research] branch is reached,
    that is for a notification that carries [web_research] and no
    [generate_query], the record appended is titled Web Research and its
    data give the number of sources and the first three distinct non-empty
    labels in order of first occurrence, joined by a comma and a space, or
    N/A when there is none; a missing source list counts as an empty
    one. *)
Theorem web_research_summary
    (event : UpdateEvent) (w : WebResearch) (s : AppState) :
  generate_query event = None ->
  web_research event = Some w ->
  (classify event).1
  = Some {| title := "Web Research";
            data := summaryOf (default [] (sources_gathered w)) |}
  /\ processedEventsTimeline (onUpdateEvent event s)
     = (processedEventsTimeline s
        ++ [ {| title := "Web Research";
                data := summaryOf (default [] (sources_gathered w)) |} ])%list
  /\ (sources_gathered w = None ->
        summaryOf (default [] (sources_gathered w))
        = "Gathered 0 sources. Related to: N/A.").
Proof.
  intros Hg Hw.
  pose proof (classify_web_research _ _ Hg Hw) as Hc.
  rewrite webResearchEvent_summary in Hc.
  split; [by rewrite Hc|].
  split; [by destruct (onUpdateEvent_record _ _ _ s Hc) as (H1 & _)|].
  by intros ->.
Qed.

Lemma web_research_summary_witness :
  (classify webResearchEventSample).1
  = Some {| title := "Web Research";
            data := "Gathered 5 sources. Related to: A, B, C." |}.
Proof.
  exact (proj1 (web_research_summary webResearchEventSample webResearchSample
                  initialState eq_refl eq_refl)).
Defined.

(** C4 as worded fails on a notification that carries [web_research]
    together with [generate_query]: the record produced is the one of the
    query phase, and its data are not the summary of the five sources. *)
Lemma web_research_summary_counterexample :
  carries twoKeyEvent WebResearchKey = true
  /\ web_research twoKeyEvent = Some {| sources_gathered := Some sampleSources |}
  /\ (classify twoKeyEvent).1
     = Some {| title := "Generating Search Queries"; data := "q" |}
  /\ ~ (exists e, (classify twoKeyEvent).1 = Some e
                  /\ data e = summaryOf sampleSources).
Proof.
  split; [reflexivity|]. split; [reflexivity|]. split; [reflexivity|].
  intros (e & He & Hd). cbn in He. injection He as <-.
  vm_compute in Hd. discriminate Hd.
Qed.

(** ** The archive effect *)

Lemma last_index (l : list Message) : l !! (length l - 1) = last l.
Proof. by rewrite last_lookup, Nat.sub_1_r. Qed.

Lemma last_nonempty (l : list Message) (m : Message) :
  last l = Some m -> bool_decide (0 < length l) = true.
Proof. destruct l; [done|]. intros _. apply bool_decide_eq_true_2. simpl. lia. Qed.

Lemma archiveEffect_latch_off thread s :
  hasFinalizeEventOccurredRef s = false -> archiveEffect thread s = s.
Proof. intros H. unfold archiveEffect. by rewrite H. Qed.

Lemma archives_inv thread s :
  archives thread s = true ->
  exists m i,
    hasFinalizeEventOccurredRef s = true /\ isLoading thread = false
    /\ last (messages thread) = Some m /\ type m = "ai"
    /\ id m = Some i /\ i <> "".
Proof.
  unfold archives. intros H.
  apply andb_true_iff in H as [H Hm]. apply andb_true_iff in H as [Hl Hld].
  destruct (last (messages thread)) as [m|] eqn:E; [|done].
  apply andb_true_iff in Hm as [Ht Hi].
  destruct (id m) as [i|] eqn:Ei; [|done].
  exists m, i. split; [done|]. split; [by destruct (isLoading thread)|].
  split; [done|]. split; [by apply String.eqb_eq|].
  split; [done|]. by apply truthy_nonempty.
Qed.

Lemma archiveEffect_archives thread s m i :
  hasFinalizeEventOccurredRef s = true -> isLoading thread = false ->
  last (messages thread) = Some m -> type m = "ai" -> id m = Some i -> i <> "" ->
  archiveEffect thread s
  = assignFinalizeRef false
      (setHistoricalActivities (fun prev => <[ i := processedEventsTimeline s ]> prev) s).
Proof.
  intros Hl Hld Hm Ht Hi Hne. unfold archiveEffect.
  rewrite Hl, Hld, (last_nonempty _ _ Hm), last_index, Hm, Hi, Ht. simpl.
  by rewrite (proj2 (truthy_nonempty i) Hne).
Qed.

(** The latch is never raised by the effect, and it is down whenever the
    effect changed anything. *)
Lemma archiveEffect_latch thread s :
  hasFinalizeEventOccurredRef (archiveEffect thread s) = false
  \/ archiveEffect thread s = s.
Proof.
  unfold archiveEffect.
  destruct (hasFinalizeEventOccurredRef s && negb (isLoading thread)
            && bool_decide (0 < length (messages thread))); [by left | by right].
Qed.

(** C1, as the code has it.  With the latch raised, an effect run that
    sees the stream idle and an assistant message with the non-empty
    identity [m1] at the end of the message list stores the content of the
    live timeline under [m1], leaves the other entries alone and lowers the
    latch.  It does not empty the live timeline, which keeps its content
    until the next submission clears it. *)
Theorem archive_sequence
    (s : AppState) (thread : Thread) (m : Message) (m1 : string) :
  hasFinalizeEventOccurredRef s = true ->
  isLoading thread = false ->
  last (messages thread) = Some m ->
  type m = "ai" ->
  id m = Some m1 ->
  m1 <> "" ->
  historicalActivities (archiveEffect thread s) !! m1 = Some (processedEventsTimeline s)
  /\ (forall k, k <> m1 ->
        historicalActivities (archiveEffect thread s) !! k = historicalActivities s !! k)
  /\ hasFinalizeEventOccurredRef (archiveEffect thread s) = false
  /\ processedEventsTimeline (archiveEffect thread s) = processedEventsTimeline s
  /\ (forall input effort model thread' now,
        blank input = false ->
        processedEventsTimeline
          (handleSubmit input effort model thread' now (archiveEffect thread s)).1 = []).
Proof.
  intros Hl Hld Hm Ht Hi Hne.
  rewrite (archiveEffect_archives _ _ _ _ Hl Hld Hm Ht Hi Hne). simpl.
  split; [apply lookup_insert_eq|].
  split; [intros k Hk; by apply lookup_insert_ne|].
  split; [done|]. split; [done|].
  intros input effort model thread' now B.
  by rewrite (handleSubmit_nonblank _ _ _ _ _ _ B).
Qed.

Lemma archive_sequence_witness :
  historicalActivities (archiveEffect settledThread pendingState) !! "m1"
  = Some [ {| title := "Finalizing Answer";
              data := "Composing and presenting the final answer." |} ]
  /\ hasFinalizeEventOccurredRef (archiveEffect settledThread pendingState) = false.
Proof.
  destruct (archive_sequence pendingState settledThread
              {| type := "ai"; content := "R"; id := Some "m1" |} "m1"
              eq_refl eq_refl eq_refl eq_refl eq_refl ltac:(discriminate))
    as (H1 & _ & H3 & _).
  exact (conj H1 H3).
Defined.

(** C1 as worded fails: in [pendingState] the latch is raised, and
    [settledThread] is idle with the assistant message [m1] last; after the
    effect the live timeline still holds the finalize record. *)
Lemma archive_sequence_counterexample :
  hasFinalizeEventOccurredRef pendingState = true
  /\ isLoading settledThread = false
  /\ messages settledThread <> []
  /\ last (messages settledThread)
     = Some {| type := "ai"; content := "R"; id := Some "m1" |}
  /\ ~ (historicalActivities (archiveEffect settledThread pendingState) !! "m1"
        = Some (processedEventsTimeline pendingState)
        /\ processedEventsTimeline (archiveEffect settledThread pendingState) = []
        /\ hasFinalizeEventOccurredRef (archiveEffect settledThread pendingState) = false).
Proof.
  split; [reflexivity|]. split; [reflexivity|]. split; [discriminate|].
  split; [reflexivity|].
  intros (_ & H & _). vm_compute in H. discriminate H.
Qed.

(** *** At most one snapshot *)

(** [archives] tells exactly when the effect writes the historical map. *)
Lemma archives_sound thread s :
  if archives thread s
  then exists i, historicalActivities (archiveEffect thread s)
                 = <[ i := processedEventsTimeline s ]> (historicalActivities s)
  else historicalActivities (archiveEffect thread s) = historicalActivities s.
Proof.
  destruct (archives thread s) eqn:A.
  - destruct (archives_inv _ _ A) as (m & i & Hl & Hld & Hm & Ht & Hi & Hne).
    exists i. by rewrite (archiveEffect_archives _ _ _ _ Hl Hld Hm Ht Hi Hne).
  - unfold archives in A. unfold archiveEffect.
    destruct (hasFinalizeEventOccurredRef s); [|done].
    destruct (isLoading thread); [done|]. simpl in *.
    rewrite last_index.
    destruct (bool_decide _); [|done].
    destruct (last (messages thread)) as [m|]; [|done].
    destruct (id m) as [i|]; [|done]. simpl in A.
    by rewrite A.
Qed.

Lemma archiveEffect_after_archive thread s :
  archives thread s = true ->
  hasFinalizeEventOccurredRef (archiveEffect thread s) = false.
Proof.
  intros H. destruct (archives_inv _ _ H) as (m & i & Hl & Hld & Hm & Ht & Hi & Hne).
  by rewrite (archiveEffect_archives _ _ _ _ Hl Hld Hm Ht Hi Hne).
Qed.

Lemma archives_latch thread s :
  archives thread s = true -> hasFinalizeEventOccurredRef s = true.
Proof.
  intros H. by destruct (archives_inv _ _ H) as (m & i & Hl & _).
Qed.

Lemma step_latch (a : Action) (s : AppState) :
  Nat.b2n (hasFinalizeEventOccurredRef (step a s).1)
  <= Nat.b2n (hasFinalizeEventOccurredRef s) + Nat.b2n (isFinalizeUpdate a).
Proof.
  destruct a as [event|thread|input effort model thread now|c| |msg|page]; simpl;
    try lia.
  - unfold onUpdateEvent.
    destruct (classify event) as [[e|] [|]]; simpl;
      destruct (hasFinalizeEventOccurredRef s); simpl; lia.
  - destruct (archiveEffect_latch thread s) as [-> | ->]; simpl; lia.
  - destruct (blank input) eqn:B.
    + rewrite (handleSubmit_blank _ _ _ _ _ _ B). simpl. lia.
    + rewrite (handleSubmit_nonblank _ _ _ _ _ _ B). simpl. lia.
Qed.

Lemma archiveCount_bound (tr : list Action) (s : AppState) :
  archiveCount tr s <= Nat.b2n (hasFinalizeEventOccurredRef s) + finalizeCount tr.
Proof.
  revert s. induction tr as [|a tr IH]; intros s; simpl; [lia|].
  specialize (IH (step a s).1).
  assert (Hf : finalizeCount (a :: tr) = Nat.b2n (isFinalizeUpdate a) + finalizeCount tr).
  { unfold finalizeCount. rewrite filter_cons.
    destruct (isFinalizeUpdate a); by case_decide. }
  rewrite Hf.
  pose proof (step_latch a s) as Hs.
  destruct a as [event|thread|input effort model thread now|c| |msg|page];
    try (simpl in *; lia).
  destruct (archives thread s) eqn:Ha; [|simpl in *; lia].
  simpl in IH |- *.
  rewrite (archiveEffect_after_archive _ _ Ha) in IH.
  rewrite (archives_latch _ _ Ha). simpl in *. lia.
Qed.

(** C2. After an effect run that stored a snapshot the latch is down, so
    the same run again, or any other, stores nothing and changes no cell.
    Over any run of the component the number of snapshots stored is at
    most the number of finalize notifications received, plus one if the
    latch was up at the start; an exchange starts with the latch lowered by
    the submission, so with the single finalize notification of a reply its
    trace is stored at most once. *)
Theorem archive_at_most_once :
  (forall thread s,
      archives thread s = true ->
      archives thread (archiveEffect thread s) = false
      /\ archiveEffect thread (archiveEffect thread s) = archiveEffect thread s
      /\ forall thread', archiveEffect thread' (archiveEffect thread s)
                         = archiveEffect thread s)
  /\ (forall tr s,
         archiveCount tr s
         <= Nat.b2n (hasFinalizeEventOccurredRef s) + finalizeCount tr)
  /\ (forall input effort model thread now tr s,
         blank input = false ->
         finalizeCount tr <= 1 ->
         archiveCount (Submit input effort model thread now :: tr) s <= 1).
Proof.
  split; [|split].
  - intros thread s H.
    pose proof (archiveEffect_after_archive _ _ H) as Hoff.
    split; [unfold archives; by rewrite Hoff|].
    split; [|intros thread']; by apply archiveEffect_latch_off.
  - apply archiveCount_bound.
  - intros input effort model thread now tr s B Hf. simpl.
    pose proof (archiveCount_bound tr
                  (handleSubmit input effort model thread now s).1) as Hb.
    rewrite (handleSubmit_nonblank _ _ _ _ _ _ B) in Hb |- *. simpl in *. lia.
Qed.

Lemma archive_at_most_once_witness :
  archiveEffect settledThread (archiveEffect settledThread pendingState)
  = archiveEffect settledThread pendingState
  /\ archiveCount [Submit "Q" "low" "m" idleThread 7; Update finalizeEvent;
                   Settle settledThread; Settle settledThread] initialState <= 1.
Proof.
  split.
  - exact (proj1 (proj2 (proj1 archive_at_most_once settledThread pendingState eq_refl))).
  - apply (proj2 (proj2 archive_at_most_once)); [reflexivity|].
    vm_compute. lia.
Defined.

(** ** The background context *)

Lemma handleSubmit_context input effort model thread now s :
  backgroundContext (handleSubmit input effort model thread now s).1
  = backgroundContext s.
Proof.
  destruct (blank input) eqn:B.
  - by rewrite (handleSubmit_blank _ _ _ _ _ _ B).
  - by rewrite (handleSubmit_nonblank _ _ _ _ _ _ B).
Qed.

Lemma onUpdateEvent_context event s :
  backgroundContext (onUpdateEvent event s) = backgroundContext s.
Proof.
  unfold onUpdateEvent. by destruct (classify event) as [[e|] [|]].
Qed.

Lemma archiveEffect_context thread s :
  backgroundContext (archiveEffect thread s) = backgroundContext s.
Proof.
  unfold archiveEffect.
  destruct (_ && _ && _); [|done].
  destruct (messages thread !! _) as [m|]; [|done].
  destruct (id m) as [i|]; [|done].
  by destruct (_ && _).
Qed.

Lemma step_context (a : Action) (s : AppState) :
  writesContext a = false ->
  backgroundContext (step a s).1 = backgroundContext s.
Proof.
  destruct a; simpl; try done; intros _.
  - apply onUpdateEvent_context.
  - apply archiveEffect_context.
  - apply handleSubmit_context.
Qed.

Lemma handleSubmit_newText input effort model thread now s :
  newText <$> (handleSubmit input effort model thread now s).2
  = if blank input then None
    else Some (Some (combinedInput (backgroundContext s) input)).
Proof.
  destruct (blank input) eqn:B.
  - by rewrite (handleSubmit_blank _ _ _ _ _ _ B).
  - rewrite (handleSubmit_nonblank _ _ _ _ _ _ B). simpl.
    unfold newText. simpl. by rewrite last_snoc.
Qed.

Lemma combinedInput_context (c input : string) :
  c <> "" ->
  combinedInput (Some c) input
  = "Background Context:" ++ JS.LF ++ c ++ JS.LF ++ JS.LF
    ++ "User Query:" ++ JS.LF ++ input.
Proof. intros Hc. simpl. by rewrite (proj2 (truthy_nonempty c) Hc). Qed.

Lemma run_context (tr : list Action) (s : AppState) (c : string) :
  backgroundContext s = Some c ->
  c <> "" ->
  Forall (fun a => writesContext a = false) tr ->
  backgroundContext (run tr s).1 = Some c
  /\ newText <$> (run tr s).2
     = (fun input => Some ("Background Context:" ++ JS.LF ++ c ++ JS.LF ++ JS.LF
                           ++ "User Query:" ++ JS.LF ++ input))
       <$> submittedInputs tr.
Proof.
  intros Hs Hc Htr. revert s Hs.
  induction Htr as [|a tr Ha Htr IH]; intros s Hs; [done|].
  simpl. destruct (step a s) as [s1 p] eqn:E.
  assert (Hs1 : backgroundContext s1 = Some c).
  { rewrite <- Hs, <- (step_context a s Ha). by rewrite E. }
  destruct (IH s1 Hs1) as [IH1 IH2].
  destruct (run tr s1) as [s2 ps] eqn:E2. simpl in *.
  split; [done|].
  destruct a as [event|thread|input effort model thread now|c'| |msg|page];
    simpl in E; try (injection E as <- <-; exact IH2); try discriminate.
  pose proof (handleSubmit_newText input effort model thread now s) as Hn.
  rewrite E in Hn. simpl in Hn. unfold submittedInputs. simpl.
  destruct (blank input); destruct p as [p|]; simplify_eq; simpl.
  - exact IH2.
  - rewrite Hs, (combinedInput_context _ _ Hc) in Hn.
    injection Hn as ->. f_equal. exact IH2.
Qed.

(** C10. [handleSubmit] never writes the background-context cell.  Hence,
    over any run in which no widget forwards a context and the banner is
    not dismissed, a non-empty context [c] stays in place and every message
    submitted is the input wrapped in the preamble made from [c]; after
    [clearBackgroundContext] the input is sent as it is, and after a widget
    forwards another non-empty context the preamble is made from that
    one. *)
Theorem background_context_persists :
  (forall input effort model thread now s,
      backgroundContext (handleSubmit input effort model thread now s).1
      = backgroundContext s)
  /\ (forall tr s c,
         backgroundContext s = Some c ->
         c <> "" ->
         Forall (fun a => writesContext a = false) tr ->
         backgroundContext (run tr s).1 = Some c
         /\ newText <$> (run tr s).2
            = (fun input => Some ("Background Context:" ++ JS.LF ++ c ++ JS.LF ++ JS.LF
                                  ++ "User Query:" ++ JS.LF ++ input))
              <$> submittedInputs tr)
  /\ (forall input effort model thread now s,
         blank input = false ->
         newText <$> (handleSubmit input effort model thread now
                        (clearBackgroundContext s)).2
         = Some (Some input))
  /\ (forall input effort model thread now s c',
         blank input = false ->
         c' <> "" ->
         newText <$> (handleSubmit input effort model thread now
                        (onSendToCopilot c' s)).2
         = Some (Some ("Background Context:" ++ JS.LF ++ c' ++ JS.LF ++ JS.LF
                       ++ "User Query:" ++ JS.LF ++ input))).
Proof.
  split; [apply handleSubmit_context|].
  split; [apply run_context|].
  split.
  - intros input effort model thread now s B.
    by rewrite handleSubmit_newText, B.
  - intros input effort model thread now s c' B Hc.
    rewrite handleSubmit_newText, B. simpl backgroundContext.
    by rewrite (combinedInput_context _ _ Hc).
Qed.

Lemma background_context_persists_witness :
  newText <$> (run [Submit "Q1" "low" "m" idleThread 7; Update finalizeEvent;
                    Settle settledThread; Submit "Q2" "low" "m" settledThread 8]
                 contextState).2
  = [ Some ("Background Context:" ++ JS.LF ++ "C" ++ JS.LF ++ JS.LF
            ++ "User Query:" ++ JS.LF ++ "Q1");
      Some ("Background Context:" ++ JS.LF ++ "C" ++ JS.LF ++ JS.LF
            ++ "User Query:" ++ JS.LF ++ "Q2") ].
Proof.
  refine (proj2 (proj1 (proj2 background_context_persists)
                   [Submit "Q1" "low" "m" idleThread 7; Update finalizeEvent;
                    Settle settledThread; Submit "Q2" "low" "m" settledThread 8]
                   contextState "C" eq_refl _ _)).
  - discriminate.
  - repeat constructor.
Defined.

(** ** Snapshots are copies *)

Lemma elements_extend (h ext : list (list ProcessedEvent)) (l : Store.loc) :
  l < length h -> Store.elements (h ++ ext) l = Store.elements h l.
Proof. intros Hl. unfold Store.elements. by rewrite lookup_app_l. Qed.

Lemma elements_alloc (h : list (list ProcessedEvent)) (a : list ProcessedEvent) :
  Store.elements (h ++ [a]) (length h) = a.
Proof. unfold Store.elements. by rewrite list_lookup_middle. Qed.

(** No callback writes into an array it did not just create: the heap only
    grows at its end. *)
Lemma Store_apply_extends (o : Store.Op) (st : Store.State) :
  exists ext, Store.heap (Store.apply o st) = (Store.heap st ++ ext)%list.
Proof.
  destruct o as [event|thread|input]; simpl.
  - unfold Store.onUpdateEvent.
    destruct (classify event) as [[e|] fin]; simpl;
      [by eexists | exists []; by rewrite app_nil_r].
  - unfold Store.archiveEffect.
    destruct (_ && _ && _); [|exists []; by rewrite app_nil_r].
    destruct (messages thread !! _) as [m|]; [|exists []; by rewrite app_nil_r].
    destruct (id m) as [i|]; [|exists []; by rewrite app_nil_r].
    destruct (_ && _); simpl; [by eexists | exists []; by rewrite app_nil_r].
  - unfold Store.handleSubmit.
    destruct (negb _); simpl; [exists []; by rewrite app_nil_r | by eexists].
Qed.

Lemma Store_run_extends (ops : list Store.Op) (st : Store.State) :
  exists ext,
    Store.heap (foldl (fun st o => Store.apply o st) st ops)
    = (Store.heap st ++ ext)%list.
Proof.
  revert st. induction ops as [|o ops IH]; intros st; simpl.
  - exists []. by rewrite app_nil_r.
  - destruct (IH (Store.apply o st)) as [ext2 ->].
    destruct (Store_apply_extends o st) as [ext1 ->].
    exists (ext1 ++ ext2)%list. by rewrite app_assoc.
Qed.

Lemma Store_onUpdateEvent_historical (evs : list UpdateEvent) (st : Store.State) :
  Store.historicalActivities (foldl (fun st ev => Store.onUpdateEvent ev st) st evs)
  = Store.historicalActivities st.
Proof.
  revert st. induction evs as [|ev evs IH]; intros st; simpl; [done|].
  rewrite IH. unfold Store.onUpdateEvent.
  by destruct (classify ev) as [[e|] fin].
Qed.

Lemma Store_updates_as_ops (evs : list UpdateEvent) (st : Store.State) :
  foldl (fun st ev => Store.onUpdateEvent ev st) st evs
  = foldl (fun st o => Store.apply o st) st (Store.OpUpdate <$> evs).
Proof.
  revert st. induction evs as [|ev evs IH]; intros st; simpl; [done|]. apply IH.
Qed.

Lemma Store_archiveEffect_archives thread st m i :
  Store.hasFinalizeEventOccurredRef st = true -> isLoading thread = false ->
  last (messages thread) = Some m -> type m = "ai" -> id m = Some i -> i <> "" ->
  Store.archiveEffect thread st
  = {| Store.heap :=
         (Store.heap st
          ++ [Store.elements (Store.heap st) (Store.processedEventsTimeline st)])%list;
       Store.processedEventsTimeline := Store.processedEventsTimeline st;
       Store.historicalActivities :=
         <[ i := length (Store.heap st) ]> (Store.historicalActivities st);
       Store.hasFinalizeEventOccurredRef := false |}.
Proof.
  intros Hl Hld Hm Ht Hi Hne. unfold Store.archiveEffect.
  rewrite Hl, Hld, (last_nonempty _ _ Hm), last_index, Hm, Hi, Ht. simpl.
  by rewrite (proj2 (truthy_nonempty i) Hne).
Qed.

(** C6. The entry the archive effect stores is a new array, distinct from
    the array of the live timeline and from every array stored before, with
    the elements the live timeline has at that moment.  The notifications
    that follow build their timelines in further new arrays: the entry
    under the message's identity is still that array, and the array still
    has those elements.  Indeed no later callback of any kind changes the
    elements of that array. *)
Theorem snapshot_by_value
    (st : Store.State) (thread : Thread) (m : Message) (i : string)
    (evs : list UpdateEvent) (ops : list Store.Op) :
  Store.wf st ->
  Store.hasFinalizeEventOccurredRef st = true ->
  isLoading thread = false ->
  last (messages thread) = Some m ->
  type m = "ai" ->
  id m = Some i ->
  i <> "" ->
  exists l,
    Store.historicalActivities (Store.archiveEffect thread st) !! i = Some l
    /\ l <> Store.processedEventsTimeline st
    /\ (forall k l', Store.historicalActivities st !! k = Some l' -> l <> l')
    /\ Store.elements (Store.heap (Store.archiveEffect thread st)) l
       = Store.elements (Store.heap st) (Store.processedEventsTimeline st)
    /\ Store.historicalActivities
         (foldl (fun st ev => Store.onUpdateEvent ev st)
            (Store.archiveEffect thread st) evs) !! i = Some l
    /\ Store.elements
         (Store.heap (foldl (fun st ev => Store.onUpdateEvent ev st)
                        (Store.archiveEffect thread st) evs)) l
       = Store.elements (Store.heap st) (Store.processedEventsTimeline st)
    /\ Store.elements
         (Store.heap (foldl (fun st o => Store.apply o st)
                        (Store.archiveEffect thread st) ops)) l
       = Store.elements (Store.heap st) (Store.processedEventsTimeline st).
Proof.
  intros [Htl Hhist] Hl Hld Hm Ht Hi Hne.
  rewrite (Store_archiveEffect_archives _ _ _ _ Hl Hld Hm Ht Hi Hne).
  set (st1 := {| Store.heap := _ |}).
  assert (Hst1 : forall ops',
             Store.elements
               (Store.heap (foldl (fun st o => Store.apply o st) st1 ops'))
               (length (Store.heap st))
             = Store.elements (Store.heap st) (Store.processedEventsTimeline st)).
  { intros ops'. destruct (Store_run_extends ops' st1) as [ext ->]. simpl.
    rewrite elements_extend by (rewrite length_app; simpl; lia).
    apply elements_alloc. }
  exists (length (Store.heap st)).
  split; [apply lookup_insert_eq|].
  split; [lia|].
  split; [intros k l' Hk; specialize (Hhist k l' Hk); simpl in Hhist; lia|].
  split; [apply elements_alloc|].
  split; [rewrite Store_onUpdateEvent_historical; apply lookup_insert_eq|].
  split; [rewrite Store_updates_as_ops; apply Hst1 | apply Hst1].
Qed.

Lemma pendingStore_wf : Store.wf pendingStore.
Proof. split; [simpl; lia | apply map_Forall_empty]. Qed.

Lemma snapshot_by_value_witness :
  exists l,
    Store.historicalActivities (Store.archiveEffect settledThread pendingStore) !! "m1"
    = Some l
    /\ l <> Store.processedEventsTimeline pendingStore
    /\ Store.elements
         (Store.heap (foldl (fun st ev => Store.onUpdateEvent ev st)
                        (Store.archiveEffect settledThread pendingStore)
                        [reflectionEvent; finalizeEvent])) l
       = [ {| title := "Finalizing Answer";
              data := "Composing and presenting the final answer." |} ].
Proof.
  destruct (snapshot_by_value pendingStore settledThread
              {| type := "ai"; content := "R"; id := Some "m1" |} "m1"
              [reflectionEvent; finalizeEvent] []
              pendingStore_wf eq_refl eq_refl eq_refl eq_refl eq_refl
              ltac:(discriminate))
    as (l & H1 & H2 & _ & _ & _ & H6 & _).
  exists l. split; [exact H1|]. split; [exact H2|]. exact H6.
Defined.

(** *** The two readings agree *)

Lemma reads_as_extend (st : Store.State) (ext : list (list ProcessedEvent))
    (k : string) :
  Store.wf st ->
  Store.elements (Store.heap st ++ ext) <$> Store.historicalActivities st !! k
  = Store.elements (Store.heap st) <$> Store.historicalActivities st !! k.
Proof.
  intros [_ Hh].
  destruct (Store.historicalActivities st !! k) as [l|] eqn:E; simpl; [|done].
  f_equal. apply elements_extend. exact (Hh k l E).
Qed.

Lemma wf_extend_hist (h : list (list ProcessedEvent)) (a : list ProcessedEvent)
    (hist : gmap string Store.loc) :
  map_Forall (fun _ l => l < length h) hist ->
  map_Forall (fun _ l => l < length (h ++ [a])) hist.
Proof.
  intros H k l Hk. specialize (H k l Hk). simpl in *.
  rewrite length_app. simpl. lia.
Qed.

Lemma Store_onUpdateEvent_reads_as event st s :
  Store.wf st -> reads_as st s ->
  Store.wf (Store.onUpdateEvent event st)
  /\ reads_as (Store.onUpdateEvent event st) (onUpdateEvent event s).
Proof.
  intros Hwf (Ht & Hh & Hl).
  unfold Store.onUpdateEvent, onUpdateEvent.
  destruct (classify event) as [[e|] fin]; simpl.
  - split.
    + split; simpl; [rewrite length_app; simpl; lia|].
      apply wf_extend_hist, Hwf.
    + split; [|split]; simpl.
      * rewrite elements_alloc, Ht. by destruct fin.
      * intros k. rewrite reads_as_extend by done. rewrite Hh. by destruct fin.
      * rewrite Hl. by destruct fin.
  - split; [exact Hwf|].
    split; [|split]; simpl.
    + rewrite Ht. by destruct fin.
    + intros k. rewrite Hh. by destruct fin.
    + rewrite Hl. by destruct fin.
Qed.

Lemma Store_archiveEffect_reads_as thread st s :
  Store.wf st -> reads_as st s ->
  Store.wf (Store.archiveEffect thread st)
  /\ reads_as (Store.archiveEffect thread st) (archiveEffect thread s).
Proof.
  intros Hwf (Ht & Hh & Hl).
  unfold Store.archiveEffect, archiveEffect. rewrite Hl.
  destruct (_ && _ && _); [|done].
  destruct (messages thread !! _) as [m|]; [|done].
  destruct (id m) as [i|]; [|done].
  destruct (_ && _); [|done].
  simpl. split.
  - split; simpl; [rewrite length_app; simpl; destruct Hwf; lia|].
    apply map_Forall_insert_2; [rewrite length_app; simpl; lia|].
    apply wf_extend_hist, Hwf.
  - split; [|split]; simpl; [|intros k|done].
    + rewrite elements_extend by apply Hwf. exact Ht.
    + destruct (decide (i = k)) as [->|Hne].
      * rewrite !lookup_insert_eq. simpl. by rewrite elements_alloc, Ht.
      * rewrite !lookup_insert_ne by done.
        rewrite reads_as_extend by done. apply Hh.
Qed.

Lemma Store_handleSubmit_reads_as input effort model thread now st s :
  Store.wf st -> reads_as st s ->
  Store.wf (Store.handleSubmit input st)
  /\ reads_as (Store.handleSubmit input st)
       (handleSubmit input effort model thread now s).1.
Proof.
  intros Hwf (Ht & Hh & Hl).
  unfold Store.handleSubmit.
  destruct (blank input) eqn:B.
  - rewrite (handleSubmit_blank _ _ _ _ _ _ B), trim_truthy, B. by simpl.
  - rewrite (handleSubmit_nonblank _ _ _ _ _ _ B), trim_truthy, B. simpl.
    split.
    + split; simpl; [rewrite length_app; simpl; lia|].
      apply wf_extend_hist, Hwf.
    + split; [|split]; simpl; [apply elements_alloc| |done].
      intros k. rewrite reads_as_extend by done. apply Hh.
Qed.

Lemma initialState_reads_as :
  Store.wf Store.initialState /\ reads_as Store.initialState initialState.
Proof.
  split; [split; [simpl; lia | apply map_Forall_empty]|].
  split; [done|]. split; [|done]. intros k. simpl. by rewrite !lookup_empty.
Qed.

(** The same frame property read on values: the entry stored by the effect
    is not touched by the notifications that follow. *)
Lemma archived_entry_survives_updates
    (s : AppState) (thread : Thread) (m : Message) (i : string)
    (evs : list UpdateEvent) :
  hasFinalizeEventOccurredRef s = true -> isLoading thread = false ->
  last (messages thread) = Some m -> type m = "ai" -> id m = Some i -> i <> "" ->
  historicalActivities
    (foldl (fun s ev => onUpdateEvent ev s) (archiveEffect thread s) evs) !! i
  = Some (processedEventsTimeline s).
Proof.
  intros Hl Hld Hm Ht Hi Hne.
  assert (Hfr : forall evs s',
             historicalActivities (foldl (fun s ev => onUpdateEvent ev s) s' evs)
             = historicalActivities s').
  { clear. induction evs as [|ev evs IH]; intros s'; simpl; [done|].
    rewrite IH. unfold onUpdateEvent. by destruct (classify ev) as [[e|] [|]]. }
  rewrite Hfr, (archiveEffect_archives _ _ _ _ Hl Hld Hm Ht Hi Hne). simpl.
  apply lookup_insert_eq.
Qed.

(** The historical map is written by the archive effect alone, and only when
    it stores a snapshot. *)
Lemma step_historical (a : Action) (s : AppState) :
  (forall thread, a = Settle thread -> archives thread s = false) ->
  historicalActivities (step a s).1 = historicalActivities s.
Proof.
  intros Ha.
  destruct a as [event|thread|input effort model thread now|c| |msg|page]; simpl;
    try done.
  - unfold onUpdateEvent. by destruct (classify event) as [[e|] [|]].
  - pose proof (archives_sound thread s) as H.
    by rewrite (Ha thread eq_refl) in H.
  - destruct (blank input) eqn:B.
    + by rewrite (handleSubmit_blank _ _ _ _ _ _ B).
    + by rewrite (handleSubmit_nonblank _ _ _ _ _ _ B).
Qed.

(** * Further properties *)

(** ** Runs *)

Lemma run_cons (a : Action) (tr : list Action) (s : AppState) :
  (run (a :: tr) s).1 = (run tr (step a s).1).1.
Proof.
  cbn [run]. destruct (step a s) as [s1 p]. cbn [fst].
  by destruct (run tr s1) as [s2 ps].
Qed.

Lemma run_invariant (P : AppState -> Prop) :
  (forall a s, P s -> P (step a s).1) ->
  forall tr s, P s -> P (run tr s).1.
Proof.
  intros Hstep tr. induction tr as [|a tr IH]; intros s Hs; [done|].
  rewrite run_cons. by apply IH, Hstep.
Qed.

Lemma archiveEffect_timeline thread s :
  processedEventsTimeline (archiveEffect thread s) = processedEventsTimeline s.
Proof.
  unfold archiveEffect.
  destruct (_ && _ && _); [|done].
  destruct (messages thread !! _) as [m|]; [|done].
  destruct (id m) as [i|]; [|done].
  by destruct (_ && _).
Qed.

Lemma classify_finalize_record event r :
  classify event = (r, true) -> r = Some finalizeRecord.
Proof.
  destruct event as [[g|] [w|] [x|] [f|]]; cbn; intros H; by simplify_eq.
Qed.

Lemma classify_cases event :
  classify event = (None, false)
  \/ (exists e, classify event = (Some e, false))
  \/ classify event = (Some finalizeRecord, true).
Proof.
  destruct (classify event) as [r [|]] eqn:E.
  - right; right. by rewrite (classify_finalize_record _ _ E).
  - destruct r as [e|]; [right; left; by exists e | by left].
Qed.

Lemma classify_knownTitle event e fin :
  classify event = (Some e, fin) -> knownTitle e.
Proof.
  unfold knownTitle.
  destruct event as [[g|] [w|] [x|] [f|]]; cbn; intros H; simplify_eq; cbn;
    repeat constructor.
Qed.

(** *** The finalize record marks every stored trace *)

Lemma finalizeSeen_step (a : Action) (s : AppState) :
  finalizeSeen s -> finalizeSeen (step a s).1.
Proof.
  intros [Hl Hh].
  destruct a as [event|thread|input effort model thread now|c| |msg|page]; simpl;
    try (by split).
  - destruct (classify_cases event) as [Hc|[[e Hc]|Hc]].
    + rewrite (onUpdateEvent_none _ _ Hc). by split.
    + destruct (onUpdateEvent_record _ _ _ s Hc) as (Ht & Hi & _ & Hf).
      split; [|by rewrite Hi].
      rewrite Ht, Hf. simpl. intros H. apply elem_of_app. left. by apply Hl.
    + destruct (onUpdateEvent_record _ _ _ s Hc) as (Ht & Hi & _ & Hf).
      split; [|by rewrite Hi].
      rewrite Ht. intros _. apply elem_of_app. right. by left.
  - destruct (archives thread s) eqn:A.
    + destruct (archives_inv _ _ A) as (m & i & Hon & Hld & Hm & Ht & Hi & Hne).
      rewrite (archiveEffect_archives _ _ _ _ Hon Hld Hm Ht Hi Hne). simpl.
      split; [done|]. apply map_Forall_insert_2; [|done]. split; [done|]. by apply Hl.
    + pose proof (archives_sound thread s) as Hs. rewrite A in Hs.
      split; [|by rewrite Hs].
      rewrite archiveEffect_timeline.
      destruct (archiveEffect_latch thread s) as [-> | ->]; [done | exact Hl].
  - destruct (blank input) eqn:B.
    + rewrite (handleSubmit_blank _ _ _ _ _ _ B). by split.
    + rewrite (handleSubmit_nonblank _ _ _ _ _ _ B). by split.
Qed.

Lemma finalizeSeen_initial : finalizeSeen initialState.
Proof. split; [done|]. apply map_Forall_empty. Qed.

(** X1. In every state the component reaches from its first render, a
    raised latch means that the live timeline holds the finalize record. *)
Theorem latch_implies_finalize_record (tr : list Action) :
  hasFinalizeEventOccurredRef (run tr initialState).1 = true ->
  finalizeRecord ∈ processedEventsTimeline (run tr initialState).1.
Proof.
  apply (run_invariant finalizeSeen finalizeSeen_step tr _ finalizeSeen_initial).
Qed.

Lemma latch_implies_finalize_record_witness :
  finalizeRecord
  ∈ processedEventsTimeline
      (run [Submit "Q" "low" "m" idleThread 7; Update reflectionEvent;
            Update finalizeEvent; Update reflectionEvent] initialState).1.
Proof.
  exact (latch_implies_finalize_record
           [Submit "Q" "low" "m" idleThread 7; Update reflectionEvent;
            Update finalizeEvent; Update reflectionEvent] eq_refl).
Defined.

(** X2. Every trace found in the historical map of a reachable state was
    stored under a non-empty key and holds the finalize record; in
    particular no stored trace is empty. *)
Theorem stored_traces_are_finalized
    (tr : list Action) (k : string) (v : list ProcessedEvent) :
  historicalActivities (run tr initialState).1 !! k = Some v ->
  k <> "" /\ finalizeRecord ∈ v /\ v <> [].
Proof.
  intros Hk.
  destruct (run_invariant finalizeSeen finalizeSeen_step tr _ finalizeSeen_initial)
    as [_ Hh].
  destruct (Hh k v Hk) as [H1 H2].
  split; [done|]. split; [done|]. intros ->. by apply not_elem_of_nil in H2.
Qed.

Lemma stored_traces_are_finalized_witness :
  "m1" <> ""
  /\ finalizeRecord
     ∈ [ {| title := "Reflection"; data := "Analysing Web Research Results" |};
         finalizeRecord ]
  /\ [ {| title := "Reflection"; data := "Analysing Web Research Results" |};
       finalizeRecord ] <> [].
Proof.
  exact (stored_traces_are_finalized
           [Update reflectionEvent; Update finalizeEvent; Settle settledThread]
           "m1" _ eq_refl).
Defined.

(** *** Titles *)

Lemma knownTitles_step (a : Action) (s : AppState) :
  Forall knownTitle (processedEventsTimeline s)
  /\ map_Forall (fun _ v => Forall knownTitle v) (historicalActivities s) ->
  Forall knownTitle (processedEventsTimeline (step a s).1)
  /\ map_Forall (fun _ v => Forall knownTitle v) (historicalActivities (step a s).1).
Proof.
  intros [Ht Hh].
  destruct a as [event|thread|input effort model thread now|c| |msg|page]; simpl;
    try (by split).
  - destruct (classify event) as [[e|] fin] eqn:Hc.
    + destruct (onUpdateEvent_record _ _ _ s Hc) as (H1 & H2 & _).
      rewrite H1, H2. split; [|done].
      apply Forall_app. split; [done|].
      constructor; [by eapply classify_knownTitle | constructor].
    + unfold onUpdateEvent. rewrite Hc. by destruct fin.
  - rewrite archiveEffect_timeline. split; [done|].
    pose proof (archives_sound thread s) as Hs.
    destruct (archives thread s); [|by rewrite Hs].
    destruct Hs as [i ->]. by apply map_Forall_insert_2.
  - destruct (blank input) eqn:B.
    + rewrite (handleSubmit_blank _ _ _ _ _ _ B). by split.
    + rewrite (handleSubmit_nonblank _ _ _ _ _ _ B). by split.
Qed.

(** X3. Whatever the stream sends, every record of the live timeline and
    of every stored trace carries one of the four phase titles. *)
Theorem timelines_hold_known_titles (tr : list Action) :
  Forall knownTitle (processedEventsTimeline (run tr initialState).1)
  /\ map_Forall (fun _ v => Forall knownTitle v)
       (historicalActivities (run tr initialState).1).
Proof.
  apply (run_invariant _ knownTitles_step).
  split; [constructor | apply map_Forall_empty].
Qed.

(** *** Arrival order *)

(** X4. Over a run without an effective submission the live timeline only
    grows: it is the timeline at the start followed by the records of the
    notifications received, one per recognised notification, in the order
    of arrival, repetitions kept. *)
Theorem timeline_in_arrival_order (tr : list Action) (s : AppState) :
  submittedInputs tr = [] ->
  processedEventsTimeline (run tr s).1
  = (processedEventsTimeline s ++ recordsOf tr)%list.
Proof.
  revert s. induction tr as [|a tr IH]; intros s Hs.
  - simpl. by rewrite app_nil_r.
  - rewrite run_cons.
    destruct a as [event|thread|input effort model thread now|c| |msg|page];
      try (rewrite (IH _ Hs); done).
    + rewrite (IH _ Hs). unfold recordsOf. simpl.
      destruct (classify event) as [[e|] fin] eqn:Hc; simpl.
      * destruct (onUpdateEvent_record _ _ _ s Hc) as (-> & _).
        by rewrite <- app_assoc.
      * unfold onUpdateEvent. rewrite Hc. by destruct fin.
    + rewrite (IH _ Hs). simpl. by rewrite archiveEffect_timeline.
    + unfold submittedInputs in Hs. simpl in Hs.
      destruct (blank input) eqn:B; [|done].
      rewrite (IH _ Hs). simpl. by rewrite (handleSubmit_blank _ _ _ _ _ _ B).
Qed.

Lemma timeline_in_arrival_order_witness :
  processedEventsTimeline
    (run [Update reflectionEvent; Update noKeyEvent; Settle settledThread;
          Update reflectionEvent; Submit "  " "low" "m" idleThread 7;
          Update finalizeEvent] initialState).1
  = [ {| title := "Reflection"; data := "Analysing Web Research Results" |};
      {| title := "Reflection"; data := "Analysing Web Research Results" |};
      finalizeRecord ].
Proof.
  exact (timeline_in_arrival_order
           [Update reflectionEvent; Update noKeyEvent; Settle settledThread;
            Update reflectionEvent; Submit "  " "low" "m" idleThread 7;
            Update finalizeEvent] initialState eq_refl).
Defined.

(** *** What the historical map never loses *)

Lemma step_latch_down (a : Action) (s : AppState) :
  hasFinalizeEventOccurredRef s = false -> isFinalizeUpdate a = false ->
  hasFinalizeEventOccurredRef (step a s).1 = false
  /\ historicalActivities (step a s).1 = historicalActivities s.
Proof.
  intros Hl Hf. split.
  - pose proof (step_latch a s) as H. rewrite Hl, Hf in H. simpl in H.
    destruct (hasFinalizeEventOccurredRef (step a s).1); [simpl in H; lia | done].
  - apply step_historical. intros thread ->. unfold archives. by rewrite Hl.
Qed.

(** X5. No finalize notification, no snapshot: from a state with the latch
    down, a run in which no notification is classified as the finalize
    phase leaves the historical map as it is and the latch down, whatever
    the effect runs see. *)
Theorem no_finalize_no_archive (tr : list Action) (s : AppState) :
  hasFinalizeEventOccurredRef s = false ->
  finalizeCount tr = 0 ->
  historicalActivities (run tr s).1 = historicalActivities s
  /\ hasFinalizeEventOccurredRef (run tr s).1 = false.
Proof.
  revert s. induction tr as [|a tr IH]; intros s Hl Hf; [done|].
  assert (Ha : isFinalizeUpdate a = false /\ finalizeCount tr = 0).
  { unfold finalizeCount in *. rewrite filter_cons in Hf.
    destruct (isFinalizeUpdate a); case_decide; simplify_eq; done. }
  destruct Ha as [Ha Htr].
  destruct (step_latch_down a s Hl Ha) as [Hl1 Hh1].
  rewrite run_cons. destruct (IH _ Hl1 Htr) as [-> ->]. by rewrite Hh1.
Qed.

Lemma no_finalize_no_archive_witness :
  historicalActivities
    (run [Submit "Q" "low" "m" idleThread 7; Update reflectionEvent;
          Settle settledThread] pendingState).1
  = historicalActivities
      (run [Submit "Q" "low" "m" idleThread 7] pendingState).1.
Proof.
  exact (proj1 (no_finalize_no_archive [Update reflectionEvent; Settle settledThread]
                  (run [Submit "Q" "low" "m" idleThread 7] pendingState).1
                  eq_refl eq_refl)).
Defined.

Lemma step_entry (a : Action) (s : AppState) (k : string) :
  settlesAt k a = false ->
  historicalActivities (step a s).1 !! k = historicalActivities s !! k.
Proof.
  intros Hk.
  destruct a as [event|thread|input effort model thread now|c| |msg|page];
    try (rewrite step_historical; [done | by intros ? [=]]).
  simpl. destruct (archives thread s) eqn:A.
  - destruct (archives_inv _ _ A) as (m & i & Hon & Hld & Hm & Ht & Hi & Hne).
    rewrite (archiveEffect_archives _ _ _ _ Hon Hld Hm Ht Hi Hne). simpl.
    apply lookup_insert_ne. intros ->.
    simpl in Hk. rewrite Hm in Hk. simpl in Hk. rewrite Hi in Hk.
    by rewrite bool_decide_eq_true_2 in Hk.
  - pose proof (archives_sound thread s) as Hs. rewrite A in Hs. by rewrite Hs.
Qed.

Lemma step_entry_kept (a : Action) (s : AppState) (k : string) :
  is_Some (historicalActivities s !! k) ->
  is_Some (historicalActivities (step a s).1 !! k).
Proof.
  intros Hk.
  destruct a as [event|thread|input effort model thread now|c| |msg|page];
    try (rewrite step_historical; [done | by intros ? [=]]).
  simpl. pose proof (archives_sound thread s) as Hs.
  destruct (archives thread s); [|by rewrite Hs].
  destruct Hs as [i ->].
  destruct (decide (i = k)) as [->|Hne].
  - rewrite lookup_insert_eq. by eexists.
  - by rewrite lookup_insert_ne.
Qed.

(** X6. A stored trace stays: over any run, a key of the historical map
    remains a key, and the trace under [k] is the same at the end unless
    some effect run of the run saw a thread that ends with a message of
    identity [k]. *)
Theorem stored_traces_stay (tr : list Action) (s : AppState) (k : string) :
  (is_Some (historicalActivities s !! k) ->
   is_Some (historicalActivities (run tr s).1 !! k))
  /\ (Forall (fun a => settlesAt k a = false) tr ->
      historicalActivities (run tr s).1 !! k = historicalActivities s !! k).
Proof.
  split.
  - revert s. induction tr as [|a tr IH]; intros s Hk; [done|].
    rewrite run_cons. by apply IH, step_entry_kept.
  - intros Htr. revert s. induction Htr as [|a tr Ha Htr IH]; intros s; [done|].
    rewrite run_cons, IH. by apply step_entry.
Qed.

Lemma stored_traces_stay_witness :
  historicalActivities
    (run [Submit "Q2" "high" "m" settledThread 9; Update reflectionEvent;
          Update finalizeEvent; Settle idleThread; StreamError "e"]
       (archiveEffect settledThread pendingState)).1 !! "m1"
  = Some [finalizeRecord].
Proof.
  refine (proj2 (stored_traces_stay
                   [Submit "Q2" "high" "m" settledThread 9; Update reflectionEvent;
                    Update finalizeEvent; Settle idleThread; StreamError "e"]
                   (archiveEffect settledThread pendingState) "m1") _).
  repeat constructor.
Defined.

(** *** When the effect does not store *)

Lemma archiveEffect_deferred thread s :
  isLoading thread = true \/ messages thread = [] ->
  archiveEffect thread s = s.
Proof.
  intros [H|H]; unfold archiveEffect; rewrite H; simpl;
    by rewrite ?andb_false_r.
Qed.

Lemma archiveEffect_drops thread s m :
  hasFinalizeEventOccurredRef s = true -> isLoading thread = false ->
  last (messages thread) = Some m ->
  (String.eqb (type m) "ai" && JS.truthy_opt (id m)) = false ->
  archiveEffect thread s = assignFinalizeRef false s.
Proof.
  intros Hl Hld Hm Hno. unfold archiveEffect.
  rewrite Hl, Hld, (last_nonempty _ _ Hm), last_index, Hm. simpl.
  destruct (id m) as [i|]; [|done]. simpl in Hno. by rewrite Hno.
Qed.

(** X7. With the latch up, an effect run that sees the stream still
    loading, or no message, changes nothing, so the snapshot is still to
    come.  An effect run that sees the stream idle and a last message that
    is not an assistant message with a non-empty identity stores nothing
    and lowers the latch all the same; no effect run after it stores the
    trace, whatever thread it sees. *)
Theorem effect_without_snapshot (thread : Thread) (s : AppState) :
  hasFinalizeEventOccurredRef s = true ->
  (isLoading thread = true \/ messages thread = [] ->
   archiveEffect thread s = s)
  /\ (forall m threads,
         isLoading thread = false ->
         last (messages thread) = Some m ->
         (String.eqb (type m) "ai" && JS.truthy_opt (id m)) = false ->
         archiveEffect thread s = assignFinalizeRef false s
         /\ (run (Settle <$> threads) (archiveEffect thread s)).1
            = archiveEffect thread s).
Proof.
  intros Hl. split; [apply archiveEffect_deferred|].
  intros m threads Hld Hm Hno.
  rewrite (archiveEffect_drops _ _ _ Hl Hld Hm Hno).
  split; [done|].
  induction threads as [|t threads IH]; [done|].
  rewrite fmap_cons, run_cons. simpl.
  by rewrite archiveEffect_latch_off.
Qed.

Lemma effect_without_snapshot_witness :
  archiveEffect {| messages := messages settledThread; isLoading := true |} pendingState
  = pendingState
  /\ historicalActivities
       (run [Settle settledThread]
          (archiveEffect
             {| messages := [ {| type := "human"; content := "Q"; id := Some "h1" |} ];
                isLoading := false |} pendingState)).1
     = ∅.
Proof.
  split.
  - exact (proj1 (effect_without_snapshot
                    {| messages := messages settledThread; isLoading := true |}
                    pendingState eq_refl) (or_introl eq_refl)).
  - destruct (proj2 (effect_without_snapshot
                       {| messages := [ {| type := "human"; content := "Q";
                                           id := Some "h1" |} ];
                          isLoading := false |}
                       pendingState eq_refl)
                {| type := "human"; content := "Q"; id := Some "h1" |}
                [settledThread] eq_refl eq_refl eq_refl) as [H1 H2].
    simpl fmap in H2. rewrite H2, H1. reflexivity.
Defined.

(** ** The error panel *)

Lemma step_error (a : Action) (s : AppState) :
  error (step a s).1
  = match a with
    | StreamError message => Some message
    | _ => error s
    end.
Proof.
  destruct a as [event|thread|input effort model thread now|c| |msg|page]; simpl;
    try done.
  - unfold onUpdateEvent. by destruct (classify event) as [[e|] [|]].
  - unfold archiveEffect.
    destruct (_ && _ && _); [|done].
    destruct (messages thread !! _) as [m|]; [|done].
    destruct (id m) as [i|]; [|done].
    by destruct (_ && _).
  - destruct (blank input) eqn:B.
    + by rewrite (handleSubmit_blank _ _ _ _ _ _ B).
    + by rewrite (handleSubmit_nonblank _ _ _ _ _ _ B).
Qed.

(** X8. Nothing clears the error cell: after any run it holds the message
    of the last stream error of the run, or what it held before if there
    was none.  While it holds a non-empty message the main area is the
    error panel, whichever page is selected. *)
Theorem error_is_never_cleared (tr : list Action) (s : AppState) :
  error (run tr s).1
  = match last (errorsOf tr) with
    | Some message => Some message
    | None => error s
    end
  /\ (forall message page,
         error s = Some message -> message <> "" ->
         mainContent (setCurrentPage page s) = ErrorPanel message).
Proof.
  split.
  - revert s. induction tr as [|a tr IH]; intros s; [done|].
    rewrite run_cons, IH, step_error.
    destruct a as [event|thread|input effort model thread now|c| |msg|page];
      try done.
    unfold errorsOf. simpl. rewrite last_cons.
    by destruct (last _).
  - intros message page He Hne. unfold mainContent. simpl. rewrite He.
    by rewrite (proj2 (truthy_nonempty _) Hne).
Qed.

Lemma error_is_never_cleared_witness :
  mainContent (setCurrentPage market (onError "boom" initialState)) = ErrorPanel "boom".
Proof.
  exact (proj2 (error_is_never_cleared [] (onError "boom" initialState))
           "boom" market eq_refl ltac:(discriminate)).
Defined.

(** ** The input form *)

Lemma form_submit_cases (st : InputForm.State) :
  (blank (InputForm.internalInputValue st) = true
   /\ InputForm.handleInternalSubmit st = (st, None))
  \/ (blank (InputForm.internalInputValue st) = false
      /\ InputForm.handleInternalSubmit st
         = ({| InputForm.internalInputValue := "";
               InputForm.effort := InputForm.effort st;
               InputForm.model := InputForm.model st |},
            Some (InputForm.internalInputValue st, InputForm.effort st,
                  InputForm.model st))).
Proof.
  unfold InputForm.handleInternalSubmit. rewrite trim_truthy.
  destruct (blank _); [by left | by right].
Qed.

Lemma form_step_selectors (e : InputForm.Event) (st : InputForm.State) :
  InputForm.effort st ∈ effortValues -> InputForm.model st ∈ modelValues ->
  InputForm.effort (InputForm.step e st).1 ∈ effortValues
  /\ InputForm.model (InputForm.step e st).1 ∈ modelValues
  /\ (forall value effort model,
         (InputForm.step e st).2 = Some (value, effort, model) ->
         blank value = false /\ effort ∈ effortValues /\ model ∈ modelValues).
Proof.
  intros He Hm.
  destruct e as [v|i|i| |key c m]; simpl.
  - done.
  - split; [|done]. destruct i; unfold effortValues; simpl; repeat constructor.
  - split; [done|]. split; [|done]. destruct i; unfold modelValues; simpl; repeat constructor.
  - destruct (form_submit_cases st) as [[B ->]|[B ->]]; simpl; [done|].
    split; [done|]. split; [done|]. intros ? ? ? [= <- <- <-]. done.
  - unfold InputForm.handleKeyDown. destruct (_ && _); [|done].
    destruct (form_submit_cases st) as [[B ->]|[B ->]]; simpl; [done|].
    split; [done|]. split; [done|]. intros ? ? ? [= <- <- <-]. done.
Qed.

Lemma form_run_calls (es : list InputForm.Event) (st : InputForm.State) :
  InputForm.effort st ∈ effortValues -> InputForm.model st ∈ modelValues ->
  Forall (fun c => blank c.1.1 = false /\ c.1.2 ∈ effortValues /\ c.2 ∈ modelValues)
    (InputForm.run es st).2.
Proof.
  revert st. induction es as [|e es IH]; intros st He Hm; simpl; [constructor|].
  destruct (form_step_selectors e st He Hm) as (He1 & Hm1 & Hc).
  destruct (InputForm.step e st) as [st1 c]. simpl in *.
  specialize (IH st1 He1 Hm1).
  destruct (InputForm.run es st1) as [st2 cs]. simpl in *.
  destruct c as [[[v ef] md]|]; [|done].
  constructor; [|done]. simpl. by apply Hc.
Qed.

Lemma effortCounts_values (effort : string) :
  effort ∈ effortValues -> effortCounts effort ∈ [(1, 1); (3, 3); (5, 10)].
Proof.
  unfold effortValues. simpl. intros H.
  repeat (apply elem_of_cons in H as [->|H]; [vm_compute; repeat constructor|]).
  by apply not_elem_of_nil in H.
Qed.

(** X9. Whatever is typed, selected and pressed in the form, starting from
    its first render, each call it makes to [handleSubmit] has a non-blank
    text and reaches [thread.submit]; the two counts of the payload are
    those of low, medium or high, never the zeros of an unknown effort, and
    the model is one of the three offered. *)
Theorem form_submissions_are_effective
    (es : list InputForm.Event) (thread : Thread) (now : N) (s : AppState) :
  Forall (fun c =>
            blank c.1.1 = false
            /\ exists p,
                 (handleSubmit c.1.1 c.1.2 c.2 thread now s).2 = Some p
                 /\ (Payload.initial_search_query_count p, Payload.max_research_loops p)
                    ∈ [(1, 1); (3, 3); (5, 10)]
                 /\ Payload.reasoning_model p ∈ modelValues)
    (InputForm.run es InputForm.initialState).2.
Proof.
  eapply Forall_impl.
  - apply form_run_calls; unfold effortValues, modelValues; simpl;
      repeat constructor.
  - intros [[v ef] md] (B & He & Hm). simpl in *. split; [done|].
    rewrite (handleSubmit_nonblank _ _ _ _ _ _ B). simpl.
    eexists. split; [done|]. simpl. split; [|done].
    pose proof (effortCounts_values _ He) as H.
    by destruct (effortCounts ef).
Qed.

(** X10. A key press calls [onSubmit] exactly when the key is Enter with
    Control or Meta held and the text is not blank; the call passes the
    text and the two selections, and empties the text area only.  The
    submit button is enabled exactly when the text is not blank and the
    stream is idle, a test the key press does not make. *)
Theorem keyboard_submission
    (key : string) (ctrlKey metaKey isLoading : bool) (st : InputForm.State) :
  (is_Some (InputForm.handleKeyDown key ctrlKey metaKey st).2
   <-> key = "Enter" /\ (ctrlKey || metaKey) = true
       /\ blank (InputForm.internalInputValue st) = false)
  /\ (is_Some (InputForm.handleKeyDown key ctrlKey metaKey st).2 ->
      InputForm.handleKeyDown key ctrlKey metaKey st
      = ({| InputForm.internalInputValue := "";
            InputForm.effort := InputForm.effort st;
            InputForm.model := InputForm.model st |},
         Some (InputForm.internalInputValue st, InputForm.effort st,
               InputForm.model st)))
  /\ (~ is_Some (InputForm.handleKeyDown key ctrlKey metaKey st).2 ->
      InputForm.handleKeyDown key ctrlKey metaKey st = (st, None))
  /\ (InputForm.isSubmitDisabled isLoading st = false
      <-> blank (InputForm.internalInputValue st) = false /\ isLoading = false).
Proof.
  unfold InputForm.handleKeyDown, InputForm.isSubmitDisabled.
  rewrite trim_truthy, negb_involutive.
  destruct (String.eqb_spec key "Enter") as [->|Hk]; simpl.
  - destruct (ctrlKey || metaKey); simpl.
    + destruct (form_submit_cases st) as [[B ->]|[B ->]]; rewrite B; simpl.
      * split; [split; [by intros [? [=]] | by intros (_ & _ & [=])]|].
        split; [by intros [? [=]]|]. split; [done|].
        split; [done | by intros [[=] _]].
      * split; [split; [done | by eexists]|].
        split; [done|]. split; [intros H; destruct H; by eexists|].
        destruct isLoading; split; try done. by intros [_ [=]].
    + split; [split; [by intros [? [=]] | by intros (_ & [=] & _)]|].
      split; [by intros [? [=]]|]. split; [done|].
      destruct (blank _), isLoading; split; try done; by intros [[=] ?] || by intros [? [=]].
  - split; [split; [by intros [? [=]] | by intros ([=] & _)]|].
    split; [by intros [? [=]]|]. split; [done|].
    destruct (blank _), isLoading; split; try done; by intros [[=] ?] || by intros [? [=]].
Qed.

Lemma keyboard_submission_witness :
  InputForm.isSubmitDisabled true
    (InputForm.step (InputForm.Change "Q") InputForm.initialState).1 = true
  /\ InputForm.handleKeyDown "Enter" false true
       (InputForm.step (InputForm.Change "Q") InputForm.initialState).1
     = ({| InputForm.internalInputValue := "";
           InputForm.effort := "medium";
           InputForm.model := "gemini-2.0-flash" |},
        Some ("Q", "medium", "gemini-2.0-flash")).
Proof.
  split; [reflexivity|].
  destruct (keyboard_submission "Enter" false true true
              (InputForm.step (InputForm.Change "Q") InputForm.initialState).1)
    as (H1 & H2 & _).
  apply H2, H1. repeat split.
Defined.

(** ** The sidebar *)





Lemma last_imap {A B} (f : nat -> A -> B) (l : list A) :
  last (imap f l) = f (length l - 1) <$> last l.
Proof.
  by rewrite !last_lookup, length_imap, list_lookup_imap, Nat.sub_1_r.
Qed.

(** X12. Once the effect has stored the trace of an exchange, the sidebar
    draws it above the reply: for a state the component can reach, with the
    latch up, and a thread that is idle and ends with the assistant message
    [m] of non-empty identity, the last bubble after the effect is that of
    [m] with the timeline of the exchange, not marked as running, and the
    waiting panel is not drawn. *)
Theorem archived_trace_is_shown
    (tr : list Action) (thread : Thread) (m : Message) (m1 : string) :
  hasFinalizeEventOccurredRef (run tr initialState).1 = true ->
  isLoading thread = false ->
  last (messages thread) = Some m ->
  type m = "ai" ->
  id m = Some m1 ->
  m1 <> "" ->
  last (sidebarBubbles thread (archiveEffect thread (run tr initialState).1))
  = Some (Sidebar.AiBubble m
            (Some (processedEventsTimeline (run tr initialState).1)) false)
  /\ sidebarPending thread (archiveEffect thread (run tr initialState).1) = None.
Proof.
  set (s := (run tr initialState).1). intros Hl Hld Hm Ht Hi Hne.
  assert (Hfin : finalizeRecord ∈ processedEventsTimeline s).
  { by apply (run_invariant finalizeSeen finalizeSeen_step tr _ finalizeSeen_initial). }
  unfold sidebarBubbles, sidebarPending, Sidebar.renderMessages, Sidebar.pendingPanel.
  rewrite last_imap, Hm, Hld. simpl. split; [|done]. f_equal.
  unfold Sidebar.renderMessage, Sidebar.activityKey.
  rewrite Ht, Hi, bool_decide_eq_true_2 by done. simpl.
  rewrite (archiveEffect_archives _ _ _ _ Hl Hld Hm Ht Hi Hne). simpl.
  rewrite lookup_insert_eq. simpl.
  rewrite bool_decide_eq_true_2; [done|].
  destruct (processedEventsTimeline s); [by apply not_elem_of_nil in Hfin | simpl; lia].
Qed.

Lemma archived_trace_is_shown_witness :
  last (sidebarBubbles settledThread
          (archiveEffect settledThread
             (run [Update reflectionEvent; Update finalizeEvent] initialState).1))
  = Some (Sidebar.AiBubble {| type := "ai"; content := "R"; id := Some "m1" |}
            (Some [ {| title := "Reflection";
                       data := "Analysing Web Research Results" |};
                    finalizeRecord ]) false).
Proof.
  exact (proj1 (archived_trace_is_shown
                  [Update reflectionEvent; Update finalizeEvent] settledThread
                  {| type := "ai"; content := "R"; id := Some "m1" |} "m1"
                  eq_refl eq_refl eq_refl eq_refl eq_refl ltac:(discriminate))).
Defined.

(** X13. The live timeline is drawn in one place at most: when the waiting
    panel is drawn, no bubble of the conversation is marked as running; and
    a bubble marked as running is the last one, of a message that is not
    the user's, while the stream is loading. *)
Theorem live_timeline_drawn_once
    (messages : list Message) (isLoading : bool)
    (live : list ProcessedEvent) (hist : gmap string (list ProcessedEvent)) :
  (is_Some (Sidebar.pendingPanel messages isLoading live) ->
   Forall (fun b => bubbleIsLive b = false)
     (Sidebar.renderMessages messages isLoading live hist))
  /\ (forall i b,
         Sidebar.renderMessages messages isLoading live hist !! i = Some b ->
         bubbleIsLive b = true ->
         isLoading = true /\ i = length messages - 1
         /\ exists m, last messages = Some m /\ type m <> "human").
Proof.
  assert (Hlive : forall i b,
             Sidebar.renderMessages messages isLoading live hist !! i = Some b ->
             bubbleIsLive b = true ->
             isLoading = true /\ i = length messages - 1
             /\ exists m, last messages = Some m /\ type m <> "human").
  { intros i b Hb Hl. unfold Sidebar.renderMessages in Hb.
    rewrite list_lookup_imap in Hb.
    destruct (messages !! i) as [m|] eqn:Em; [|done]. simpl in Hb.
    injection Hb as <-. unfold Sidebar.renderMessage in Hl.
    destruct (String.eqb_spec (type m) "human") as [|Hty]; [done|]. simpl in Hl.
    apply andb_true_iff in Hl as [Hi Hld]. apply bool_decide_eq_true_1 in Hi.
    split; [done|]. split; [done|]. exists m. split; [|done].
    by rewrite <- last_index, <- Hi. }
  split; [|exact Hlive].
  intros [p Hp]. apply Forall_lookup. intros i b Hb.
  destruct (bubbleIsLive b) eqn:Hl; [|done].
  destruct (Hlive i b Hb Hl) as (Hld & _ & m & Hm & Hty).
  unfold Sidebar.pendingPanel in Hp. rewrite Hld, last_index, Hm in Hp. simpl in Hp.
  destruct messages as [|m0 ms]; [done|].
  rewrite bool_decide_eq_false_2 in Hp by done. simpl in Hp.
  destruct (String.eqb_spec (type m) "human"); done.
Qed.

Lemma live_timeline_drawn_once_witness :
  Forall (fun b => bubbleIsLive b = false)
    (Sidebar.renderMessages [ {| type := "human"; content := "Q"; id := Some "h1" |} ]
       true [finalizeRecord] ∅).
Proof.
  apply (proj1 (live_timeline_drawn_once
                  [ {| type := "human"; content := "Q"; id := Some "h1" |} ]
                  true [finalizeRecord] ∅)).
  by eexists.
Defined.

(** ** The widgets *)

Lemma formatTimeAgo_valid (d now : Z) :
  formatTimeAgo (Some d) now
  = let m := ((now - d) `div` 60000)%Z in
    if bool_decide (m < 1)%Z then "Just now"
    else if bool_decide (m < 60)%Z then JS.toString (Z.to_N m) ++ "m ago"
    else if bool_decide (m < 1440)%Z then JS.toString (Z.to_N (m `div` 60)) ++ "h ago"
    else JS.toString (Z.to_N (m `div` 1440)) ++ "d ago".
Proof.
  unfold formatTimeAgo, JSNumber.floorDiv, JSNumber.lt, JSNumber.toString. simpl.
  change (1000 * 60)%Z with 60000%Z.
  set (m := ((now - d) `div` 60000)%Z).
  repeat case_bool_decide; try done; exfalso;
    Z.div_mod_to_equations; lia.
Qed.

(** X14. [formatTimeAgo] for a date less than a minute old, or in the
    future, gives Just now; then whole minutes from 1 to 59, whole hours
    from 1 to 23, and whole days from 1 on, each rounded down.  For a
    string that is not a date it gives the text NaNd ago. *)
Theorem formatTimeAgo_buckets (d now : Z) :
  ((now - d < 60000)%Z -> formatTimeAgo (Some d) now = "Just now")
  /\ (forall m, (1 <= m < 60)%Z ->
        (60000 * m <= now - d < 60000 * (m + 1))%Z ->
        formatTimeAgo (Some d) now = JS.toString (Z.to_N m) ++ "m ago")
  /\ (forall h, (1 <= h < 24)%Z ->
        (3600000 * h <= now - d < 3600000 * (h + 1))%Z ->
        formatTimeAgo (Some d) now = JS.toString (Z.to_N h) ++ "h ago")
  /\ (forall n, (1 <= n)%Z ->
        (86400000 * n <= now - d < 86400000 * (n + 1))%Z ->
        formatTimeAgo (Some d) now = JS.toString (Z.to_N n) ++ "d ago")
  /\ formatTimeAgo None now = "NaNd ago".
Proof.
  rewrite formatTimeAgo_valid. cbv zeta.
  set (q := ((now - d) `div` 60000)%Z).
  split; [|split; [|split; [|split]]].
  - intros H. rewrite bool_decide_eq_true_2; [done|].
    unfold q. Z.div_mod_to_equations. lia.
  - intros m Hm H.
    assert (q = m) as -> by (unfold q; Z.div_mod_to_equations; lia).
    rewrite bool_decide_eq_false_2 by lia. by rewrite bool_decide_eq_true_2 by lia.
  - intros h Hh H.
    assert ((60 * h <= q < 60 * (h + 1))%Z) as Hq
        by (unfold q; Z.div_mod_to_equations; lia).
    assert ((q `div` 60)%Z = h) as Hd by (Z.div_mod_to_equations; lia).
    rewrite !bool_decide_eq_false_2 by lia.
    rewrite bool_decide_eq_true_2 by lia. by rewrite Hd.
  - intros n Hn H.
    assert ((1440 * n <= q < 1440 * (n + 1))%Z) as Hq
        by (unfold q; Z.div_mod_to_equations; lia).
    assert ((q `div` 1440)%Z = n) as Hd by (Z.div_mod_to_equations; lia).
    rewrite !bool_decide_eq_false_2 by lia. by rewrite Hd.
  - reflexivity.
Qed.

Lemma formatTimeAgo_buckets_witness :
  formatTimeAgo (Some 1700000000000%Z) 1699999999000%Z = "Just now"
  /\ formatTimeAgo (Some 1700000000000%Z) 1700000185000%Z = "3m ago"
  /\ formatTimeAgo (Some 1700000000000%Z) 1700082799999%Z = "22h ago"
  /\ formatTimeAgo (Some 1700000000000%Z) 1700172800000%Z = "2d ago".
Proof.
  destruct (formatTimeAgo_buckets 1700000000000 1699999999000) as (H1 & _).
  destruct (formatTimeAgo_buckets 1700000000000 1700000185000) as (_ & H2 & _).
  destruct (formatTimeAgo_buckets 1700000000000 1700082799999) as (_ & _ & H3 & _).
  destruct (formatTimeAgo_buckets 1700000000000 1700172800000) as (_ & _ & _ & H4 & _).
  split; [apply H1; lia|].
  split; [apply (H2 3%Z); lia|].
  split; [apply (H3 22%Z); lia|].
  apply (H4 2%Z); lia.
Defined.

Lemma newsContext_nonempty {NewsArticle : Type}
    (articleText : nat -> NewsArticle -> string) (news : list NewsArticle) :
  newsContext NewsArticle articleText news <> "".
Proof. unfold newsContext. simpl. discriminate. Qed.

(** X15. The news widget forwards nothing while it has no article.  With
    articles it forwards a context that is never empty, whatever the
    articles say, so the next non-blank submission of [App] is wrapped in
    the preamble made from exactly that context. *)
Theorem news_context_is_prepended
    {NewsArticle : Type} (articleText : nat -> NewsArticle -> string)
    (news : list NewsArticle) :
  (news = [] -> newsSendToCopilot NewsArticle articleText news = None)
  /\ (news <> [] ->
      exists c,
        newsSendToCopilot NewsArticle articleText news = Some c
        /\ c <> ""
        /\ forall input effort model thread now s,
             blank input = false ->
             newText <$> (handleSubmit input effort model thread now
                            (onSendToCopilot c s)).2
             = Some (Some ("Background Context:" ++ JS.LF ++ c ++ JS.LF ++ JS.LF
                           ++ "User Query:" ++ JS.LF ++ input))).
Proof.
  unfold newsSendToCopilot. split.
  - by intros ->.
  - intros Hne. destruct news as [|a news]; [done|]. simpl.
    eexists. split; [reflexivity|].
    split; [apply newsContext_nonempty|].
    intros input effort model thread now s B.
    rewrite handleSubmit_newText, B. simpl backgroundContext.
    by rewrite (combinedInput_context _ _ (newsContext_nonempty articleText (a :: news))).
Qed.

Lemma news_context_is_prepended_witness :
  newsSendToCopilot unit (fun _ _ => "") [] = None
  /\ exists c, newsSendToCopilot unit (fun _ _ => "") [()] = Some c /\ c <> "".
Proof.
  split.
  - exact (proj1 (news_context_is_prepended (fun _ _ => "") []) eq_refl).
  - destruct (proj2 (news_context_is_prepended (fun _ _ => "") [()])
                ltac:(discriminate)) as (c & Hc & Hne & _).
    exists c. by split.
Defined.

(** ** The form and [App] together *)

(** X16. The guard of the form and the guard of [handleSubmit] agree: a
    form event that sends no payload made no call and left [App] as it
    was, and one that sends a payload had a non-blank text, emptied the
    text area, cleared the live timeline and the latch, and sent that text
    (wrapped in the background context, if one is held) as the new
    message. *)
Theorem form_and_app_agree
    (e : InputForm.Event) (thread : Thread) (now : N)
    (form : InputForm.State) (s : AppState) :
  ((submitThroughForm e thread now form s).2 = None ->
   (InputForm.step e form).2 = None
   /\ (submitThroughForm e thread now form s).1 = ((InputForm.step e form).1, s))
  /\ (forall p,
         (submitThroughForm e thread now form s).2 = Some p ->
         blank (InputForm.internalInputValue form) = false
         /\ InputForm.internalInputValue (submitThroughForm e thread now form s).1.1 = ""
         /\ processedEventsTimeline (submitThroughForm e thread now form s).1.2 = []
         /\ hasFinalizeEventOccurredRef (submitThroughForm e thread now form s).1.2 = false
         /\ newText p
            = Some (combinedInput (backgroundContext s)
                      (InputForm.internalInputValue form))).
Proof.
  unfold submitThroughForm.
  assert (Hcall : forall st' v ef md,
             InputForm.step e form = (st', Some (v, ef, md)) ->
             v = InputForm.internalInputValue form /\ blank v = false
             /\ InputForm.internalInputValue st' = "").
  { intros st' v ef md H.
    destruct e as [x|i|i| |key c m]; simpl in H; try done.
    - destruct (form_submit_cases form) as [[B Hf]|[B Hf]]; rewrite Hf in H;
        by simplify_eq.
    - unfold InputForm.handleKeyDown in H. destruct (_ && _); [|done].
      destruct (form_submit_cases form) as [[B Hf]|[B Hf]]; rewrite Hf in H;
        by simplify_eq. }
  destruct (InputForm.step e form) as [st' [[[v ef] md]|]] eqn:E; [|by split].
  destruct (Hcall _ _ _ _ eq_refl) as (-> & B & Hclear).
  rewrite (handleSubmit_nonblank _ _ _ _ _ _ B). simpl.
  split; [done|]. intros p [= <-]. unfold newText. simpl.
  by rewrite last_snoc.
Qed.

Lemma form_and_app_agree_witness :
  (submitThroughForm InputForm.SubmitForm idleThread 7 InputForm.initialState
     pendingState).1
  = (InputForm.initialState, pendingState)
  /\ processedEventsTimeline
       (submitThroughForm InputForm.SubmitForm idleThread 7
          (InputForm.step (InputForm.Change "Q") InputForm.initialState).1
          pendingState).1.2 = [].
Proof.
  split.
  - exact (proj2 (proj1 (form_and_app_agree InputForm.SubmitForm idleThread 7
                           InputForm.initialState pendingState) eq_refl)).
  - destruct (proj2 (form_and_app_agree InputForm.SubmitForm idleThread 7
                       (InputForm.step (InputForm.Change "Q") InputForm.initialState).1
                       pendingState) _ eq_refl) as (_ & _ & H & _).
    exact H.
Defined.
